(** * csstype: the typer (src/typer.ts)

    [typing] maps a parsed CSS value-definition syntax (an array of grammar
    entities) to the ordered, deduplicated list of type descriptors the
    declaration generator consumes.  This file embeds [typing] and its local
    helpers and proves the properties the specification states about them. *)

From Stdlib Require Import ZArith String Ascii List Bool Lia.
From stdpp Require Import base decidable option list strings pretty gmap.

Set Warnings "-register-all".
Local Open Scope string_scope.
Local Open Scope list_scope.
Local Open Scope Z_scope.

(** Case analysis on the test of the first conditional of the goal. *)
Ltac case_if :=
  match goal with
  | |- context [if negb ?b then _ else _] => destruct b eqn:?
  | |- context [if ?b then _ else _] => destruct b eqn:?
  end.

(** ** What the host language provides *)

Module JS.

(** [Number(s)], [String(n)] and [===] on numbers are ECMAScript built-ins,
    not code of the repository: the typer is stated over any runtime that
    provides them. *)
Class Runtime := {
  number : Type;
  NaN : number;
  Number : string -> number;
  String : number -> string;
  strict_equal : number -> number -> bool;
}.

Definition is_letter (c : ascii) : bool :=
  let n := nat_of_ascii c in
  ((65 <=? n)%nat && (n <=? 90)%nat) || ((97 <=? n)%nat && (n <=? 122)%nat).

(** The facts of ECMA-262 the concrete scenarios rely on: a text that
    starts with a letter other than the [I] of [Infinity] is no numeric
    literal and converts to [NaN]; [NaN] prints as ["NaN"]; ["0"] converts
    to a number that prints as ["0"]; [NaN] is [===] to nothing. *)
Class Laws (rt : Runtime) : Prop := {
  Number_letter : forall c s,
    is_letter c = true -> c <> "I"%char -> Number (String.String c s) = NaN;
  String_NaN : String NaN = "NaN";
  String_Number_0 : String (Number "0") = "0";
  strict_equal_NaN_l : forall x, strict_equal NaN x = false;
  strict_equal_NaN_r : forall x, strict_equal x NaN = false;
}.

(** A string is its sequence of code units.  [s.slice(start, end)]:
    negative indices count from the end, both are clamped to the length. *)
Definition relative_index (len i : Z) : Z :=
  if i <? 0 then Z.max (len + i) 0 else Z.min i len.

Definition slice (s : string) (start end_ : Z) : string :=
  let len := Z.of_nat (String.length s) in
  let from := relative_index len start in
  let to := relative_index len end_ in
  substring (Z.to_nat from) (Z.to_nat (Z.max (to - from) 0)) s.

(** [s.indexOf(pattern)]: the first position of [pattern], or [-1]. *)
Definition indexOf (s pattern : string) : Z :=
  match index 0 pattern s with
  | Some n => Z.of_nat n
  | None => -1
  end.

(** [name in object], for an object that starts as [{}]: the own
    properties, here the keys of [own], and the properties every such object
    inherits from [Object.prototype] (ECMA-262, 20.1.3 and B.2.2). *)
Definition Object_prototype : list string :=
  ["constructor"; "hasOwnProperty"; "isPrototypeOf"; "propertyIsEnumerable";
   "toLocaleString"; "toString"; "valueOf"; "__proto__";
   "__defineGetter__"; "__defineSetter__"; "__lookupGetter__";
   "__lookupSetter__"].

Definition inherited (name : string) : bool :=
  bool_decide (name ∈ Object_prototype).

Definition has_property {A : Type} (own : gmap string A) (name : string) : bool :=
  bool_decide (is_Some (own !! name)) || inherited name.

End JS.

(** ** The tables of mdn-data

    [mdn-data/css/types.json] and [mdn-data/css/syntaxes.json] are data of
    another package: the keys of the first in the order [Object.keys] lists
    them, and the set of the keys of the second. *)
Class MdnData := {
  cssTypes : list string;
  syntaxes : gset string;
}.

(** ** The parser's entity tree (./parser) *)

Module Combinator.
Inductive t := Juxtaposition | DoubleAmpersand | DoubleBar | SingleBar.
#[global] Instance eq_dec : EqDecision t.
Proof. solve_decision. Defined.
End Combinator.

Module Multiplier.
Inductive t :=
  Asterisk | PlusSign | QuestionMark | HashMark | ExclamationPoint | QurlyBracet.
#[global] Instance eq_dec : EqDecision t.
Proof. solve_decision. Defined.
End Multiplier.

(** Modelled from the spec: the declarations of ./parser are not part of the
    sources at hand.  A multiplier is a sign, and the [QurlyBracet] sign comes
    with its repetition range. *)
Inductive MultiplierType :=
| IMultiplierSimple (simple : Multiplier.t)
| IMultiplierQurlyBracet (min max : Z).

Definition sign (multiplier : MultiplierType) : Multiplier.t :=
  match multiplier with
  | IMultiplierSimple s => s
  | IMultiplierQurlyBracet _ _ => Multiplier.QurlyBracet
  end.

(** Modelled from the spec: the entity union of ./parser.  Entities are
    objects, and [Array.prototype.indexOf] finds an entity by [===], that is
    by the identity of the object and not by its fields: every node carries
    the identity [ref] of its object.  The same object may sit at several
    places of an array. *)
Inductive EntityType :=
| IComponentKeyword (ref : nat) (value : string) (multiplier : option MultiplierType)
| IComponentDataType (ref : nat) (value : string) (multiplier : option MultiplierType)
| IComponentGroup (ref : nat) (entities : list EntityType)
                  (multiplier : option MultiplierType)
| ICombinator (ref : nat) (combinator : Combinator.t)
| IFunction (ref : nat).

Definition ref_of (entity : EntityType) : nat :=
  match entity with
  | IComponentKeyword r _ _ | IComponentDataType r _ _ | IComponentGroup r _ _
  | ICombinator r _ | IFunction r => r
  end.

Definition multiplier_of (entity : EntityType) : option MultiplierType :=
  match entity with
  | IComponentKeyword _ _ m | IComponentDataType _ _ m | IComponentGroup _ _ m => m
  | ICombinator _ _ | IFunction _ => None
  end.

(** ** Type descriptors *)

Module Ty.
(** [Type.String | Type.Number | Type.Length], the [type] of an [IBasic]. *)
Inductive basic := String | Number | Length.
#[global] Instance eq_dec : EqDecision basic.
Proof. solve_decision. Defined.
End Ty.

(** ** The typer *)

Section Typer.

Context {rt : JS.Runtime} {data : MdnData}.

(** [TypeType<IDataType>]: [typing] builds no [IAlias]. *)
Inductive TypeType :=
| IBasic (type : Ty.basic)
| IStringLiteral (literal : string)
| INumericLiteral (literal : JS.number)
| IDataType (name : string).

(** *** The catalog of basic data types *)

(** The object the reducer fills, as the finite map of the keys it writes.
    The names the reducer sees are names of CSS data types, none of them a
    property of [Object.prototype]: on them [name in syntaxes] is the key
    test of the table. *)
Definition basicDataTypes : gmap string Ty.basic :=
  fold_left
    (fun (dataTypes : gmap string Ty.basic) (name : string) =>
       if bool_decide (name = "number" \/ name = "integer") then
         <[name := Ty.Number]> dataTypes
       else if bool_decide (name = "length") then
         <[name := Ty.Length]> dataTypes
       else if bool_decide (name ∈ syntaxes) then dataTypes
       else <[name := Ty.String]> dataTypes)
    (cssTypes ++ ["hex-color"])
    ∅.

(** *** Entity tests *)

Definition isFunction (entity : EntityType) : bool :=
  match entity with IFunction _ => true | _ => false end.

Definition isComponent (entity : EntityType) : bool :=
  match entity with
  | IComponentKeyword _ _ _ | IComponentDataType _ _ _ | IComponentGroup _ _ _ => true
  | _ => false
  end.

Definition isCombinator (entity : EntityType) : bool :=
  match entity with ICombinator _ _ => true | _ => false end.

Definition isQurlyBracetMultiplier (multiplier : MultiplierType) : bool :=
  bool_decide (sign multiplier = Multiplier.QurlyBracet).

Definition min_of (multiplier : MultiplierType) : option Z :=
  match multiplier with IMultiplierQurlyBracet min _ => Some min | _ => None end.

Definition max_of (multiplier : MultiplierType) : option Z :=
  match multiplier with IMultiplierQurlyBracet _ max => Some max | _ => None end.

(** [x > k] and [x === k] on a field that may be missing: a comparison
    with [undefined] is false. *)
Definition gt (x : option Z) (k : Z) : bool :=
  match x with Some v => k <? v | None => false end.

Definition equals (x : option Z) (k : Z) : bool :=
  match x with Some v => v =? k | None => false end.

Definition isMandatoryCombinator (entity : EntityType) : bool :=
  match entity with
  | ICombinator _ combinator =>
      bool_decide (combinator = Combinator.DoubleAmpersand)
      || bool_decide (combinator = Combinator.Juxtaposition)
  | _ => false
  end.

Definition isOptionalComponent (component : EntityType) : bool :=
  match multiplier_of component with
  | Some multiplier =>
      (isQurlyBracetMultiplier multiplier && gt (min_of multiplier) 0)
      || bool_decide (sign multiplier = Multiplier.Asterisk)
      || bool_decide (sign multiplier = Multiplier.QuestionMark)
  | None => false
  end.

(** *** Neighbours in the array *)

(** [entities.indexOf(entity)]: the first index holding the same object,
    [-1] when there is none. *)
Fixpoint indexOf (entities : list EntityType) (entity : EntityType) : Z :=
  match entities with
  | [] => -1
  | e :: rest =>
      if (ref_of e =? ref_of entity)%nat then 0
      else let i := indexOf rest entity in if i <? 0 then -1 else i + 1
  end.

(** [entities[i]], [undefined] out of range. *)
Definition at_index (entities : list EntityType) (i : Z) : option EntityType :=
  if i <? 0 then None else entities !! Z.to_nat i.

Definition previousEntity (entities : list EntityType) (currentEntity : EntityType) :=
  at_index entities (indexOf entities currentEntity - 1).

Definition nextEntity (entities : list EntityType) (currentEntity : EntityType) :=
  at_index entities (indexOf entities currentEntity + 1).

Definition previousComponentWasOptional entities (combinator : EntityType) : bool :=
  match previousEntity entities combinator with
  | Some component => isComponent component && isOptionalComponent component
  | None => false
  end.

Definition nextComponentIsOptional entities (combinator : EntityType) : bool :=
  match nextEntity entities combinator with
  | Some component => isComponent component && isOptionalComponent component
  | None => false
  end.

Definition mandatory (neighbour : option EntityType) : option EntityType :=
  match neighbour with
  | Some c => if isCombinator c && isMandatoryCombinator c then Some c else None
  | None => None
  end.

Definition shouldIncludeComponent entities (entity : EntityType) : bool :=
  match mandatory (nextEntity entities entity) with
  | Some nextCombinator => nextComponentIsOptional entities nextCombinator
  | None =>
      match mandatory (previousEntity entities entity) with
      | Some previousCombinator => previousComponentWasOptional entities previousCombinator
      | None => true
      end
  end.

(** *** The accumulator *)

(** The local variables of one call of [typing]. *)
Record Locals := {
  types : list TypeType;
  hasLength : bool;
  hasString : bool;
  hasNumber : bool;
}.

Definition initial : Locals :=
  {| types := []; hasLength := false; hasString := false; hasNumber := false |}.

Definition push (type : TypeType) (l : Locals) : Locals :=
  {| types := types l ++ [type]; hasLength := hasLength l;
     hasString := hasString l; hasNumber := hasNumber l |}.

Definition addLength (l : Locals) : Locals :=
  if hasLength l then l
  else let l := push (IBasic Ty.Length) l in
       {| types := types l; hasLength := true;
          hasString := hasString l; hasNumber := hasNumber l |}.

Definition addString (l : Locals) : Locals :=
  if hasString l then l
  else let l := push (IBasic Ty.String) l in
       {| types := types l; hasLength := hasLength l;
          hasString := true; hasNumber := hasNumber l |}.

Definition addNumber (l : Locals) : Locals :=
  if hasNumber l then l
  else let l := push (IBasic Ty.Number) l in
       {| types := types l; hasLength := hasLength l;
          hasString := hasString l; hasNumber := true |}.

Definition isStringLiteral (literal : string) (type : TypeType) : bool :=
  match type with IStringLiteral l => String.eqb l literal | _ => false end.

Definition isNumericLiteral (literal : JS.number) (type : TypeType) : bool :=
  match type with INumericLiteral l => JS.strict_equal l literal | _ => false end.

Definition isDataType (name : string) (type : TypeType) : bool :=
  match type with IDataType n => String.eqb n name | _ => false end.

Definition addStringLiteral (literal : string) (l : Locals) : Locals :=
  if forallb (fun type => negb (isStringLiteral literal type)) (types l)
  then push (IStringLiteral literal) l else l.

Definition addNumericLiteral (literal : JS.number) (l : Locals) : Locals :=
  if forallb (fun type => negb (isNumericLiteral literal type)) (types l)
  then push (INumericLiteral literal) l else l.

Definition addDataType (name : string) (l : Locals) : Locals :=
  if forallb (fun type => negb (isDataType name type)) (types l)
  then push (IDataType name) l else l.

Definition add (type : TypeType) (l : Locals) : Locals :=
  match type with
  | IBasic Ty.Length => addLength l
  | IBasic Ty.String => addString l
  | IBasic Ty.Number => addNumber l
  | IStringLiteral literal => addStringLiteral literal l
  | INumericLiteral literal => addNumericLiteral literal l
  | IDataType name => addDataType name l
  end.

(** *** The loop of [typing] *)

(** The test on the multiplier of a group. *)
Definition groupIsCollapsed (multiplier : option MultiplierType) : bool :=
  match multiplier with
  | Some m =>
      (isQurlyBracetMultiplier m && (gt (min_of m) 1 || equals (max_of m) 1))
      || bool_decide (sign m = Multiplier.Asterisk)
      || bool_decide (sign m = Multiplier.PlusSign)
      || bool_decide (sign m = Multiplier.HashMark)
      || bool_decide (sign m = Multiplier.ExclamationPoint)
  | None => false
  end.

(** One round of [for (const entity of entities)].  [nested] stands for
    the recursive call [typing(entity.entities)] on a group.

    Where [value in basicDataTypes] holds, [basicDataTypes[value]] is the
    entry of the catalog under that key, or else a member of
    [Object.prototype]: a function, or for [__proto__] the prototype itself.
    None of these has a [type], the [switch] of [add] has no case for
    [undefined], and [add] returns without a push. *)
Definition body (nested : EntityType -> list TypeType)
    (entities : list EntityType) (l : Locals) (entity : EntityType) : Locals :=
  if isComponent entity then
    if shouldIncludeComponent entities entity then
      match entity with
      | IComponentKeyword _ value _ =>
          if String.eqb (JS.String (JS.Number value)) value
          then addNumericLiteral (JS.Number value) l
          else addStringLiteral value l
      | IComponentDataType _ value _ =>
          let value := JS.slice value 1 (-1) in
          if JS.indexOf value "'" =? 0 then addString l
          else if JS.has_property basicDataTypes value then
            match basicDataTypes !! value with
            | Some basic => add (IBasic basic) l
            | None => l
            end
          else addDataType value l
      | IComponentGroup _ _ multiplier =>
          let l := if groupIsCollapsed multiplier then addString l else l in
          fold_left (fun l type => add type l) (nested entity) l
      | _ => l
      end
    else l
  else if isCombinator entity then
    match entity with
    | ICombinator _ combinator =>
        if bool_decide (combinator = Combinator.DoubleBar) || isMandatoryCombinator entity
        then addString l else l
    | _ => l
    end
  else if isFunction entity then addString l
  else l.

(** [typing(entity.entities)] for a group, by recursion on the tree. *)
Fixpoint typing_nested (entity : EntityType) : list TypeType :=
  match entity with
  | IComponentGroup _ entities _ =>
      types (fold_left (body typing_nested entities) entities initial)
  | _ => []
  end.

(** The state of the loop after the entities [rest], started in [l]. *)
Definition loop (entities rest : list EntityType) (l : Locals) : Locals :=
  fold_left (body typing_nested entities) rest l.

Definition typing (entities : list EntityType) : list TypeType :=
  types (loop entities entities initial).

End Typer.

Arguments IBasic {rt} type.
Arguments IStringLiteral {rt} literal.
Arguments INumericLiteral {rt} literal.
Arguments IDataType {rt} name.

(** ** The vocabulary of the properties *)

Section Vocabulary.

Context {rt : JS.Runtime} {data : MdnData}.

(** *** The accumulator as a deduplicating append *)

(** The presence test of the [add...] helpers: [old] is the descriptor
    already in [types], [new] the one being added. *)
Definition same (old new : TypeType) : bool :=
  match old, new with
  | IBasic a, IBasic b => bool_decide (a = b)
  | IStringLiteral a, IStringLiteral b => String.eqb a b
  | INumericLiteral a, INumericLiteral b => JS.strict_equal a b
  | IDataType a, IDataType b => String.eqb a b
  | _, _ => false
  end.

Definition present (type : TypeType) (ts : list TypeType) : bool :=
  existsb (fun old => same old type) ts.

(** The flags say what [types] holds. *)
Definition flags_ok (l : Locals) : Prop :=
  hasLength l = present (IBasic Ty.Length) (types l)
  /\ hasString l = present (IBasic Ty.String) (types l)
  /\ hasNumber l = present (IBasic Ty.Number) (types l).

(** Adding the descriptors of [stream] one after the other. *)
Definition add_all (stream : list TypeType) (l : Locals) : Locals :=
  fold_left (fun l type => add type l) stream l.

(** [collect seen stream]: [seen] followed by the first occurrences, in
    order, of the descriptors of [stream] that [seen] does not hold. *)
Fixpoint collect (seen stream : list TypeType) : list TypeType :=
  match stream with
  | [] => seen
  | type :: rest =>
      collect (if present type seen then seen else seen ++ [type]) rest
  end.

(** No descriptor of the list passes the presence test against an earlier
    one. *)
Definition pairwise_different (ts : list TypeType) : Prop :=
  forall i j a b,
    (i < j)%nat -> ts !! i = Some a -> ts !! j = Some b -> same a b = false.

(** *** What one entity contributes *)

(** The descriptor of a keyword, and the descriptor of a data type where
    the loop adds one. *)
Definition keywordType (value : string) : TypeType :=
  if String.eqb (JS.String (JS.Number value)) value
  then INumericLiteral (JS.Number value)
  else IStringLiteral value.

Definition dataTypeType (value : string) : option TypeType :=
  let value := JS.slice value 1 (-1) in
  if JS.indexOf value "'" =? 0 then Some (IBasic Ty.String)
  else match basicDataTypes !! value with
       | Some basic => Some (IBasic basic)
       | None => if JS.inherited value then None else Some (IDataType value)
       end.

(** The descriptors the loop hands to the [add...] helpers while it is
    at [entity], in that order. *)
Definition triggered (entities : list EntityType) (entity : EntityType)
  : list TypeType :=
  match entity with
  | IComponentKeyword _ value _ =>
      if shouldIncludeComponent entities entity then [keywordType value] else []
  | IComponentDataType _ value _ =>
      if shouldIncludeComponent entities entity
      then option_list (dataTypeType value) else []
  | IComponentGroup _ nested multiplier =>
      if shouldIncludeComponent entities entity
      then (if groupIsCollapsed multiplier then [IBasic Ty.String] else [])
             ++ typing nested
      else []
  | ICombinator _ combinator =>
      if bool_decide (combinator = Combinator.DoubleBar)
         || isMandatoryCombinator entity
      then [IBasic Ty.String] else []
  | IFunction _ => [IBasic Ty.String]
  end.

(** *** The inclusion filter by position *)

(** The filter in the words of the specification, by position: the
    entity after (before) the component, and the one after (before) that. *)
Definition mandatoryCombinatorAt (entities : list EntityType) (i : Z) : bool :=
  match at_index entities i with
  | Some c => isCombinator c && isMandatoryCombinator c
  | None => false
  end.

Definition optionalComponentAt (entities : list EntityType) (i : Z) : bool :=
  match at_index entities i with
  | Some c => isComponent c && isOptionalComponent c
  | None => false
  end.

Definition inclusion_filter (entities : list EntityType) (i : Z) : bool :=
  if mandatoryCombinatorAt entities (i + 1) then optionalComponentAt entities (i + 2)
  else if mandatoryCombinatorAt entities (i - 1)
       then optionalComponentAt entities (i - 2)
       else true.

(** An array of pairwise different objects. *)
Definition distinct_objects (entities : list EntityType) : Prop :=
  NoDup (ref_of <$> entities).

(** *** Texts and catalog entries *)

(** The text without its first and its last character. *)
Fixpoint drop_last (s : string) : string :=
  match s with
  | EmptyString => EmptyString
  | String.String c EmptyString => EmptyString
  | String.String c s' => String.String c (drop_last s')
  end.

Definition strip_ends (s : string) : string :=
  match s with
  | EmptyString => EmptyString
  | String.String _ s' => drop_last s'
  end.

Definition starts_with_quote (s : string) : bool :=
  match s with
  | String.String c _ => Ascii.eqb c "'"%char
  | EmptyString => false
  end.

(** What the [switch] of the reducer makes of one name. *)
Definition classify (name : string) : option Ty.basic :=
  if bool_decide (name = "number" \/ name = "integer") then Some Ty.Number
  else if bool_decide (name = "length") then Some Ty.Length
  else if bool_decide (name ∈ syntaxes) then None
  else Some Ty.String.

Definition reducer (dataTypes : gmap string Ty.basic) (name : string)
  : gmap string Ty.basic :=
  match classify name with
  | Some basic => <[name := basic]> dataTypes
  | None => dataTypes
  end.

(** *** Shapes the typer does not model *)

(** [entity] is one of [entities] or lies in a group below them. *)
Inductive occurs (entity : EntityType) : list EntityType -> Prop :=
| occurs_here entities :
    In entity entities -> occurs entity entities
| occurs_nested entities ref nested multiplier :
    In (IComponentGroup ref nested multiplier) entities ->
    occurs entity nested ->
    occurs entity entities.

(** A data type in quotes, a function, a combinator of several terms, a
    group with a repeating multiplier. *)
Definition unsupported (entity : EntityType) : bool :=
  match entity with
  | IComponentKeyword _ _ _ => false
  | IComponentDataType _ value _ => starts_with_quote (strip_ends value)
  | IComponentGroup _ _ multiplier => groupIsCollapsed multiplier
  | ICombinator _ combinator =>
      bool_decide (combinator = Combinator.DoubleBar)
      || isMandatoryCombinator entity
  | IFunction _ => true
  end.

(** *** The depth of the calls *)

(** The calls of [typing] as they nest at run time: every call of
    [typing(entity.entities)] takes one unit of [fuel], and [None] is a call
    that did not return within it. *)
Fixpoint typing_calls (fuel : nat) (entities : list EntityType)
  : option (list TypeType) :=
  match fuel with
  | O => None
  | S fuel =>
      types <$>
        fold_left
          (fun (acc : option Locals) (entity : EntityType) =>
             l ← acc;
             if isComponent entity && shouldIncludeComponent entities entity then
               match entity with
               | IComponentGroup _ nested _ =>
                   result ← typing_calls fuel nested;
                   Some (body (fun _ => result) entities l entity)
               | _ => Some (body (fun _ => []) entities l entity)
               end
             else Some (body (fun _ => []) entities l entity))
          entities (Some initial)
  end.

(** How deep the groups of an entity, and of an array, nest. *)
Fixpoint depth (entity : EntityType) : nat :=
  match entity with
  | IComponentGroup _ nested _ =>
      S (fold_right (fun e d => Nat.max (depth e) d) 0%nat nested)
  | _ => 0%nat
  end.

Definition nesting (entities : list EntityType) : nat :=
  fold_right (fun e d => Nat.max (depth e) d) 0%nat entities.

(** *** Measures and shapes of arrays *)

(** The number of entities of a tree, groups and their content counted. *)
Fixpoint size (entity : EntityType) : nat :=
  match entity with
  | IComponentGroup _ nested _ =>
      S (fold_right (fun e n => (size e + n)%nat) 0%nat nested)
  | _ => 1%nat
  end.

Definition total_size (entities : list EntityType) : nat :=
  fold_right (fun e n => (size e + n)%nat) 0%nat entities.

(** The texts of the keywords of an array, in order. *)
Definition keyword_texts (entities : list EntityType) : list string :=
  flat_map
    (fun e => match e with IComponentKeyword _ value _ => [value] | _ => [] end)
    entities.

(** A keyword, or the combinator [|]. *)
Definition keyword_or_bar (entity : EntityType) : bool :=
  match entity with
  | IComponentKeyword _ _ _ => true
  | ICombinator _ combinator => bool_decide (combinator = Combinator.SingleBar)
  | _ => false
  end.

(** The combinator [|], a group without a collapsing multiplier whose
    own entities type to nothing, or a data type whose name is no key of the
    catalog and yet a property of every object. *)
Definition silent (entity : EntityType) : bool :=
  match entity with
  | ICombinator _ combinator => bool_decide (combinator = Combinator.SingleBar)
  | IComponentDataType _ value _ =>
      let name := strip_ends value in
      negb (starts_with_quote name)
      && bool_decide (basicDataTypes !! name = None)
      && JS.inherited name
  | IComponentGroup _ nested multiplier =>
      negb (groupIsCollapsed multiplier)
      && match typing nested with [] => true | _ => false end
  | _ => false
  end.

(** The entities [cs] with the one object [sep] between each two of them. *)
Fixpoint join (sep : EntityType) (cs : list EntityType) : list EntityType :=
  match cs with
  | [] => []
  | c :: rest => c :: match rest with [] => [] | _ => sep :: join sep rest end
  end.

(** A test on the entity at an index, false where there is none. *)
Definition probe (test : EntityType -> bool) (entities : list EntityType) (i : Z)
  : bool :=
  match at_index entities i with
  | Some c => test c
  | None => false
  end.

(** Where a descriptor of the output comes from in the tree. *)
Definition origin (type : TypeType) (entities : list EntityType) : Prop :=
  match type with
  | IStringLiteral literal =>
      exists ref multiplier,
        occurs (IComponentKeyword ref literal multiplier) entities
        /\ String.eqb (JS.String (JS.Number literal)) literal = false
  | INumericLiteral literal =>
      exists ref value multiplier,
        occurs (IComponentKeyword ref value multiplier) entities
        /\ literal = JS.Number value
        /\ String.eqb (JS.String (JS.Number value)) value = true
  | IDataType name =>
      exists ref value multiplier,
        occurs (IComponentDataType ref value multiplier) entities
        /\ name = strip_ends value
        /\ starts_with_quote name = false
        /\ basicDataTypes !! name = None
        /\ JS.inherited name = false
  | IBasic Ty.String => True
  | IBasic basic =>
      exists ref value multiplier,
        occurs (IComponentDataType ref value multiplier) entities
        /\ starts_with_quote (strip_ends value) = false
        /\ basicDataTypes !! strip_ends value = Some basic
  end.

End Vocabulary.

(** ** A runtime of natural-number literals

    A model of [JS.Laws], for running the typer on concrete inputs: the
    numbers are [NaN] and the naturals, a text of decimal digits converts to
    its value and any other text to [NaN]. *)

Module Naturals.

Definition digit (c : ascii) : option N :=
  let n := N_of_ascii c in
  if ((48 <=? n) && (n <=? 57))%N then Some (n - 48)%N else None.

Fixpoint digits (acc : N) (s : string) : option N :=
  match s with
  | EmptyString => Some acc
  | String.String c s' =>
      match digit c with
      | Some d => digits (10 * acc + d)%N s'
      | None => None
      end
  end.

Definition runtime : JS.Runtime := {|
  JS.number := option N;
  JS.NaN := None;
  JS.Number := digits 0;
  JS.String := fun n => match n with Some v => pretty v | None => "NaN" end;
  JS.strict_equal := fun x y =>
    match x, y with Some a, Some b => (a =? b)%N | _, _ => false end;
|}.

End Naturals.

(** A cut of the tables of mdn-data: five of the keys of types.json, and
    [color] as the one name syntaxes.json defines. *)
Definition sample_data : MdnData := {|
  cssTypes := ["number"; "integer"; "length"; "percentage"; "color"];
  syntaxes := {["color"]};
|}.

Definition sample_typing : list EntityType -> list TypeType :=
  typing (rt := Naturals.runtime) (data := sample_data).

Definition sample_body :=
  body (rt := Naturals.runtime) (data := sample_data)
    (typing_nested (rt := Naturals.runtime) (data := sample_data)).

(** [[a]* b]: the group stands before a mandatory combinator that no
    optional component follows. *)
Definition left_out_group : EntityType :=
  IComponentGroup 0 [IComponentKeyword 1 "a" None]
    (Some (IMultiplierSimple Multiplier.Asterisk)).

Definition around_left_out_group : list EntityType :=
  [ICombinator 2 Combinator.Juxtaposition; IComponentKeyword 3 "b" None].

(** [a b c] with one combinator object at both places. *)
Definition shared_a : EntityType := IComponentKeyword 0 "a" None.
Definition shared_J : EntityType := ICombinator 1 Combinator.Juxtaposition.
Definition shared_b : EntityType := IComponentKeyword 2 "b" None.
Definition shared_c : EntityType := IComponentKeyword 3 "c" None.

Definition shared_q : EntityType :=
  IComponentKeyword 4 "c" (Some (IMultiplierSimple Multiplier.QuestionMark)).

(** ** Properties *)

Section Properties.

Context {rt : JS.Runtime} {data : MdnData}.

Lemma typing_nested_group ref entities multiplier :
  typing_nested (IComponentGroup ref entities multiplier) = typing entities.
Proof. reflexivity. Qed.

(** *** The accumulator as a deduplicating append *)

Lemma flags_ok_initial : flags_ok initial.
Proof. repeat split. Qed.

Lemma forallb_negb_existsb {A} (f : A -> bool) (xs : list A) :
  forallb (fun x => negb (f x)) xs = negb (existsb f xs).
Proof.
  induction xs as [|x xs IH]; cbn; [reflexivity|].
  rewrite IH. now destruct (f x).
Qed.

Lemma present_app type ts us :
  present type (ts ++ us) = present type ts || present type us.
Proof. apply existsb_app. Qed.

Lemma every_not_StringLiteral literal ts :
  forallb (fun type => negb (isStringLiteral literal type)) ts
  = negb (present (IStringLiteral literal) ts).
Proof. apply forallb_negb_existsb. Qed.

Lemma every_not_NumericLiteral literal ts :
  forallb (fun type => negb (isNumericLiteral literal type)) ts
  = negb (present (INumericLiteral literal) ts).
Proof. apply forallb_negb_existsb. Qed.

Lemma every_not_DataType name ts :
  forallb (fun type => negb (isDataType name type)) ts
  = negb (present (IDataType name) ts).
Proof. apply forallb_negb_existsb. Qed.

Lemma add_types type l :
  flags_ok l ->
  types (add type l) =
    if present type (types l) then types l else types l ++ [type].
Proof.
  intros (HL & HS & HN).
  destruct type as [[]| | |]; cbn [add];
    unfold addString, addNumber, addLength,
      addStringLiteral, addNumericLiteral, addDataType;
    rewrite ?HL, ?HS, ?HN, ?every_not_StringLiteral,
      ?every_not_NumericLiteral, ?every_not_DataType;
    case_if; reflexivity.
Qed.

Lemma add_flags_ok type l : flags_ok l -> flags_ok (add type l).
Proof.
  intros (HL & HS & HN).
  destruct type as [[]| | |]; cbn [add];
    unfold addString, addNumber, addLength,
      addStringLiteral, addNumericLiteral, addDataType;
    case_if; unfold flags_ok, present in *; cbn;
    rewrite ?existsb_app; cbn; rewrite ?orb_false_r, ?orb_true_r;
    repeat split; congruence.
Qed.

Lemma add_all_flags_ok stream l : flags_ok l -> flags_ok (add_all stream l).
Proof.
  revert l. induction stream as [|t stream IH]; intros l H; cbn; [assumption|].
  apply IH. now apply add_flags_ok.
Qed.

Lemma add_all_app s1 s2 l : add_all (s1 ++ s2) l = add_all s2 (add_all s1 l).
Proof. apply fold_left_app. Qed.

Lemma add_all_types stream l :
  flags_ok l -> types (add_all stream l) = collect (types l) stream.
Proof.
  revert l. induction stream as [|t stream IH]; intros l H; cbn; [reflexivity|].
  unfold add_all in IH. rewrite IH by now apply add_flags_ok.
  now rewrite add_types.
Qed.

(** *** What one entity contributes *)

Lemma has_property_lookup {A : Type} (own : gmap string A) name :
  JS.has_property own name =
    match own !! name with Some _ => true | None => JS.inherited name end.
Proof.
  unfold JS.has_property. destruct (own !! name) as [a|].
  - now rewrite bool_decide_true by eauto.
  - rewrite bool_decide_false; [reflexivity|]. intros [a Ha]. discriminate.
Qed.

Lemma body_triggered entities l entity :
  body typing_nested entities l entity = add_all (triggered entities entity) l.
Proof.
  destruct entity as [r v m|r v m|r nested m|r c|r]; cbn [body isComponent
    isCombinator isFunction triggered].
  - case_if; [|reflexivity]. unfold keywordType. now case_if.
  - case_if; [|reflexivity]. unfold dataTypeType. cbn zeta.
    case_if; [reflexivity|]. rewrite has_property_lookup.
    destruct (basicDataTypes !! _); [reflexivity|].
    now destruct (JS.inherited _).
  - case_if; [|reflexivity]. rewrite add_all_app, typing_nested_group.
    now case_if.
  - now case_if.
  - reflexivity.
Qed.

Lemma loop_triggered entities rest l :
  loop entities rest l = add_all (flat_map (triggered entities) rest) l.
Proof.
  unfold loop. revert l.
  induction rest as [|e rest IH]; intros l; cbn [fold_left flat_map]; [reflexivity|].
  now rewrite IH, add_all_app, body_triggered.
Qed.

Lemma loop_flags_ok entities rest l :
  flags_ok l -> flags_ok (loop entities rest l).
Proof. rewrite loop_triggered. apply add_all_flags_ok. Qed.

Lemma typing_collect entities :
  typing entities = collect [] (flat_map (triggered entities) entities).
Proof.
  unfold typing. rewrite loop_triggered.
  now rewrite add_all_types by apply flags_ok_initial.
Qed.

(** *** Order and uniqueness of the output *)

Lemma collect_app seen s1 s2 :
  collect seen (s1 ++ s2) = collect (collect seen s1) s2.
Proof.
  revert seen. induction s1 as [|t s1 IH]; intros seen; cbn; [reflexivity|].
  apply IH.
Qed.

(** What is in the accumulator stays where it is. *)
Lemma collect_prefix seen stream : seen `prefix_of` collect seen stream.
Proof.
  revert seen. induction stream as [|t stream IH]; intros seen; cbn; [reflexivity|].
  destruct (present t seen); [apply IH|].
  etransitivity; [|apply IH]. now apply prefix_app_r.
Qed.

(** The output after a part of the array is the start of the output. *)
Lemma typing_grows entities pre post :
  entities = pre ++ post ->
  types (loop entities pre initial) `prefix_of` typing entities.
Proof.
  intros E. rewrite typing_collect, loop_triggered.
  rewrite add_all_types by apply flags_ok_initial.
  rewrite E at 3. rewrite flat_map_app, collect_app. apply collect_prefix.
Qed.

Lemma pairwise_different_snoc ts type :
  pairwise_different ts -> present type ts = false ->
  pairwise_different (ts ++ [type]).
Proof.
  intros Hts Hnew i j a b Hij Ha Hb.
  assert (Hj : (j < length (ts ++ [type]))%nat) by (eapply lookup_lt_Some, Hb).
  rewrite length_app in Hj. cbn in Hj.
  rewrite lookup_app_l in Ha by lia.
  destruct (decide (j < length ts)%nat) as [Hlt|Hge].
  - rewrite lookup_app_l in Hb by assumption. exact (Hts i j a b Hij Ha Hb).
  - rewrite lookup_app_r in Hb by lia.
    replace (j - length ts)%nat with 0%nat in Hb by lia.
    injection Hb as <-.
    unfold present in Hnew.
    destruct (same a type) eqn:E; [|reflexivity].
    assert (existsb (fun old => same old type) ts = true); [|congruence].
    apply existsb_exists. exists a. split; [|assumption].
    apply list_elem_of_In. eapply list_elem_of_lookup_2, Ha.
Qed.

Lemma collect_pairwise_different seen stream :
  pairwise_different seen -> pairwise_different (collect seen stream).
Proof.
  revert seen. induction stream as [|t stream IH]; intros seen H; cbn; [assumption|].
  destruct (present t seen) eqn:E; apply IH; [assumption|].
  now apply pairwise_different_snoc.
Qed.

Lemma typing_pairwise_different entities : pairwise_different (typing entities).
Proof.
  rewrite typing_collect. apply collect_pairwise_different.
  intros i j a b _ Ha. discriminate.
Qed.

(** The only descriptor the output can hold twice is a numeric literal
    that is not [===] to itself. *)
Lemma typing_repeats_only_NaN entities i j type :
  i <> j ->
  typing entities !! i = Some type -> typing entities !! j = Some type ->
  exists literal,
    type = INumericLiteral literal /\ JS.strict_equal literal literal = false.
Proof.
  intros Hij Hi Hj.
  assert (Hsame : same type type = false).
  { destruct (Nat.lt_total i j) as [Hlt|[->|Hlt]]; [|now elim Hij|].
    - exact (typing_pairwise_different entities i j _ _ Hlt Hi Hj).
    - exact (typing_pairwise_different entities j i _ _ Hlt Hj Hi). }
  destruct type as [b|v|x|v]; cbn in Hsame.
  - now rewrite bool_decide_eq_true_2 in Hsame.
  - now rewrite String.eqb_refl in Hsame.
  - now exists x.
  - now rewrite String.eqb_refl in Hsame.
Qed.

Lemma same_eq old type :
  same old type = true -> (forall x, type <> INumericLiteral x) -> old = type.
Proof.
  destruct old as [a|a|a|a], type as [b|b|b|b]; cbn; try discriminate.
  - now intros ->%bool_decide_eq_true.
  - now intros ->%String.eqb_eq.
  - intros _ H. now elim (H b).
  - now intros ->%String.eqb_eq.
Qed.

Lemma collect_seen seen stream type :
  In type seen -> In type (collect seen stream).
Proof.
  intros H. apply list_elem_of_In.
  eapply elem_of_prefix; [|apply collect_prefix]. now apply list_elem_of_In.
Qed.

(** What the stream holds reaches the output, numeric literals apart. *)
Lemma collect_stream seen stream type :
  (forall x, type <> INumericLiteral x) ->
  In type stream -> In type (collect seen stream).
Proof.
  intros Hty. revert seen.
  induction stream as [|t stream IH]; intros seen Hin; [destruct Hin|].
  cbn. destruct Hin as [->|Hin]; [|now apply IH].
  apply collect_seen.
  destruct (present type seen) eqn:E.
  - apply existsb_exists in E as (old & Hold & Hsame).
    now rewrite <- (same_eq _ _ Hsame Hty).
  - apply in_app_iff. right. now left.
Qed.

Lemma typing_triggered entities entity type :
  (forall x, type <> INumericLiteral x) ->
  In entity entities -> In type (triggered entities entity) ->
  In type (typing entities).
Proof.
  intros Hty He Ht. rewrite typing_collect. apply collect_stream; [assumption|].
  apply in_flat_map. now exists entity.
Qed.

Lemma present_prefix type ts us :
  ts `prefix_of` us -> present type ts = true -> present type us = true.
Proof.
  intros [more ->] H. rewrite present_app, H. reflexivity.
Qed.

(** A descriptor of the stream is in the output, or the output holds one
    that passes the presence test against it. *)
Lemma collect_reaches seen stream type :
  In type stream ->
  In type (collect seen stream) \/ present type (collect seen stream) = true.
Proof.
  revert seen.
  induction stream as [|t stream IH]; intros seen Hin; [destruct Hin|].
  cbn. destruct Hin as [->|Hin]; [|now apply IH].
  destruct (present type seen) eqn:E.
  - right. eapply present_prefix; [apply collect_prefix|assumption].
  - left. apply collect_seen, in_app_iff. right. now left.
Qed.

Lemma typing_reaches entities entity type :
  In entity entities -> In type (triggered entities entity) ->
  In type (typing entities) \/ present type (typing entities) = true.
Proof.
  intros He Ht. rewrite typing_collect. apply collect_reaches.
  apply in_flat_map. now exists entity.
Qed.

(** *** The inclusion filter *)

Lemma isOptionalComponent_iff component :
  isOptionalComponent component = true <->
  exists multiplier, multiplier_of component = Some multiplier /\
    ((exists min max, multiplier = IMultiplierQurlyBracet min max /\ min > 0)
     \/ sign multiplier = Multiplier.Asterisk
     \/ sign multiplier = Multiplier.QuestionMark).
Proof.
  unfold isOptionalComponent.
  destruct (multiplier_of component) as [m|]; [|split; [discriminate|]].
  - rewrite !orb_true_iff, andb_true_iff, !bool_decide_eq_true.
    unfold isQurlyBracetMultiplier. rewrite bool_decide_eq_true. split.
    + intros H. exists m. split; [reflexivity|].
      destruct H as [[[H1 H2]|H]|H]; auto.
      left. destruct m as [s|lo hi]; [discriminate|].
      exists lo, hi. cbn in H2. split; [reflexivity|lia].
    + intros (m' & [= <-] & [(lo & hi & -> & H)|[H|H]]); auto.
      left; left. cbn. split; [reflexivity|lia].
  - intros (m & H & _). discriminate.
Qed.

Lemma indexOf_distinct entities i entity :
  distinct_objects entities ->
  entities !! i = Some entity ->
  indexOf entities entity = Z.of_nat i.
Proof.
  unfold distinct_objects. revert i.
  induction entities as [|e rest IH]; intros i Hd Hi; [discriminate|].
  cbn in Hd. apply NoDup_cons in Hd as [Hnotin Hd].
  destruct i as [|i]; cbn in Hi |- *.
  - injection Hi as ->. now rewrite Nat.eqb_refl.
  - destruct (Nat.eqb_spec (ref_of e) (ref_of entity)) as [E|_].
    + exfalso. apply Hnotin. rewrite E.
      apply list_elem_of_fmap. exists entity. split; [reflexivity|].
      eapply list_elem_of_lookup_2; eassumption.
    + rewrite (IH i Hd Hi).
      destruct (Z.ltb_spec (Z.of_nat i) 0); lia.
Qed.

Lemma at_index_Some entities i entity :
  at_index entities i = Some entity ->
  0 <= i /\ entities !! Z.to_nat i = Some entity.
Proof.
  unfold at_index. destruct (Z.ltb_spec i 0); [discriminate|]. auto.
Qed.

Lemma at_index_In entities i entity :
  at_index entities i = Some entity -> In entity entities.
Proof.
  intros [_ H]%at_index_Some. apply list_elem_of_In.
  eapply list_elem_of_lookup_2; eassumption.
Qed.

Lemma mandatory_Some neighbour c :
  mandatory neighbour = Some c ->
  neighbour = Some c /\ isCombinator c && isMandatoryCombinator c = true.
Proof.
  unfold mandatory. destruct neighbour as [c'|]; [|discriminate].
  destruct (isCombinator c' && isMandatoryCombinator c') eqn:E; [|discriminate].
  now intros [= <-].
Qed.

Lemma mandatory_None neighbour :
  mandatory neighbour = None ->
  match neighbour with
  | Some c => isCombinator c && isMandatoryCombinator c
  | None => false
  end = false.
Proof.
  unfold mandatory. destruct neighbour as [c'|]; [|reflexivity].
  now destruct (isCombinator c' && isMandatoryCombinator c').
Qed.

(** On an array of pairwise different objects the filter of the code is
    the positional one. *)
Lemma shouldIncludeComponent_distinct entities i entity :
  distinct_objects entities ->
  entities !! i = Some entity ->
  shouldIncludeComponent entities entity = inclusion_filter entities (Z.of_nat i).
Proof.
  intros Hd Hi.
  unfold shouldIncludeComponent, inclusion_filter, mandatoryCombinatorAt,
    nextEntity, previousEntity.
  rewrite (indexOf_distinct _ _ _ Hd Hi).
  destruct (mandatory (at_index entities (Z.of_nat i + 1))) as [c|] eqn:Hn.
  - apply mandatory_Some in Hn as [Hn Hc]. rewrite Hn, Hc.
    apply at_index_Some in Hn as [? Hn].
    unfold nextComponentIsOptional, nextEntity, optionalComponentAt.
    rewrite (indexOf_distinct _ _ _ Hd Hn).
    now replace (Z.of_nat (Z.to_nat (Z.of_nat i + 1)) + 1)
      with (Z.of_nat i + 2) by lia.
  - apply mandatory_None in Hn. rewrite Hn.
    destruct (mandatory (at_index entities (Z.of_nat i - 1))) as [c|] eqn:Hp.
    + apply mandatory_Some in Hp as [Hp Hc]. rewrite Hp, Hc.
      apply at_index_Some in Hp as [? Hp].
      unfold previousComponentWasOptional, previousEntity, optionalComponentAt.
      rewrite (indexOf_distinct _ _ _ Hd Hp).
      now replace (Z.of_nat (Z.to_nat (Z.of_nat i - 1)) - 1)
        with (Z.of_nat i - 2) by lia.
    + apply mandatory_None in Hp. now rewrite Hp.
Qed.

(** A component is left out only next to a mandatory combinator of the
    array. *)
Lemma excluded_has_mandatory entities entity :
  shouldIncludeComponent entities entity = false ->
  exists c, In c entities /\ isCombinator c && isMandatoryCombinator c = true.
Proof.
  unfold shouldIncludeComponent.
  destruct (mandatory (nextEntity entities entity)) as [c|] eqn:Hn.
  - apply mandatory_Some in Hn as [Hn Hc]. intros _. exists c.
    split; [|assumption]. eapply at_index_In, Hn.
  - destruct (mandatory (previousEntity entities entity)) as [c|] eqn:Hp;
      [|discriminate].
    apply mandatory_Some in Hp as [Hp Hc]. intros _. exists c.
    split; [|assumption]. eapply at_index_In, Hp.
Qed.

Lemma included_without_mandatory entities entity :
  Forall (fun c => isMandatoryCombinator c = false) entities ->
  shouldIncludeComponent entities entity = true.
Proof.
  intros Hall.
  destruct (shouldIncludeComponent entities entity) eqn:E; [reflexivity|].
  apply excluded_has_mandatory in E as (c & Hin & Hc).
  rewrite Forall_forall in Hall. apply list_elem_of_In in Hin.
  rewrite (Hall c Hin), andb_false_r in Hc.
  discriminate.
Qed.

(** *** Keywords *)

Lemma keywordType_letter (laws : JS.Laws rt) c s :
  JS.is_letter c = true -> c <> "I"%char -> String.String c s <> "NaN" ->
  keywordType (String.String c s) = IStringLiteral (String.String c s).
Proof.
  intros Hc HI Hne. unfold keywordType.
  rewrite (JS.Number_letter c s Hc HI), JS.String_NaN.
  destruct (String.eqb_spec "NaN" (String.String c s)) as [E|_]; [|reflexivity].
  now elim Hne.
Qed.

Lemma keywordType_NaN (laws : JS.Laws rt) :
  keywordType "NaN" = INumericLiteral JS.NaN.
Proof.
  unfold keywordType.
  rewrite (JS.Number_letter "N" "aN") by (reflexivity || discriminate).
  now rewrite JS.String_NaN.
Qed.

Lemma keywordType_0 (laws : JS.Laws rt) :
  keywordType "0" = INumericLiteral (JS.Number "0").
Proof. unfold keywordType. now rewrite JS.String_Number_0. Qed.

(** C4: an included keyword adds the numeric literal of its text when the
    text is what its number prints as, and the string literal of its text
    otherwise, and that literal is then in the output, or the output holds
    one that passes the presence test against it; ["0"] alone gives the
    numeric literal of ["0"], ["auto"] alone the string literal ["auto"]. *)
Theorem keyword_literal (laws : JS.Laws rt) :
  (forall entities l ref value multiplier,
      shouldIncludeComponent entities (IComponentKeyword ref value multiplier) = true ->
      body typing_nested entities l (IComponentKeyword ref value multiplier) =
        if String.eqb (JS.String (JS.Number value)) value
        then addNumericLiteral (JS.Number value) l
        else addStringLiteral value l)
  /\ (forall entities ref value multiplier,
        In (IComponentKeyword ref value multiplier) entities ->
        shouldIncludeComponent entities (IComponentKeyword ref value multiplier) = true ->
        if String.eqb (JS.String (JS.Number value)) value
        then In (INumericLiteral (JS.Number value)) (typing entities)
             \/ present (INumericLiteral (JS.Number value)) (typing entities) = true
        else In (IStringLiteral value) (typing entities))
  /\ (forall ref multiplier,
        typing [IComponentKeyword ref "0" multiplier]
        = [INumericLiteral (JS.Number "0")])
  /\ (forall ref multiplier,
        typing [IComponentKeyword ref "auto" multiplier] = [IStringLiteral "auto"]).
Proof.
  split; [|split; [|split]].
  - intros entities l ref value multiplier H. cbn [body isComponent].
    now rewrite H.
  - intros entities ref value multiplier Hin H.
    assert (Ht : In (keywordType value)
                   (triggered entities (IComponentKeyword ref value multiplier))).
    { cbn [triggered]. rewrite H. now left. }
    unfold keywordType in Ht. case_if.
    + eapply typing_reaches; eassumption.
    + eapply typing_triggered; [discriminate|eassumption..].
  - intros ref multiplier. rewrite typing_collect. cbn [flat_map triggered].
    rewrite ?included_without_mandatory by (repeat constructor).
    now rewrite keywordType_0.
  - intros ref multiplier. rewrite typing_collect. cbn [flat_map triggered].
    rewrite ?included_without_mandatory by (repeat constructor).
    now rewrite (keywordType_letter laws) by (reflexivity || discriminate).
Qed.

(** *** Combinators *)

(** C3: a combinator of the array adds [String] exactly when it is
    [DoubleBar], [Juxtaposition] or [DoubleAmpersand], and [String] is then
    in the output; [SingleBar] leaves the accumulator as it is;
    [auto || none] gives the literal ["auto"], [String] and the literal
    ["none"], in that order. *)
Theorem combinator_adds_String (laws : JS.Laws rt) :
  (forall entities l ref combinator,
      body typing_nested entities l (ICombinator ref combinator) =
        if bool_decide (combinator = Combinator.DoubleBar
                        \/ combinator = Combinator.Juxtaposition
                        \/ combinator = Combinator.DoubleAmpersand)
        then addString l else l)
  /\ (forall entities ref combinator,
        In (ICombinator ref combinator) entities ->
        combinator <> Combinator.SingleBar ->
        In (IBasic Ty.String) (typing entities))
  /\ (forall entities l ref,
        body typing_nested entities l (ICombinator ref Combinator.SingleBar) = l)
  /\ (forall r0 r1 r2 m0 m2,
        typing [IComponentKeyword r0 "auto" m0;
                ICombinator r1 Combinator.DoubleBar;
                IComponentKeyword r2 "none" m2]
        = [IStringLiteral "auto"; IBasic Ty.String; IStringLiteral "none"]).
Proof.
  split; [|split; [|split]].
  - intros entities l ref []; reflexivity.
  - intros entities ref combinator Hin Hc.
    eapply typing_triggered; [discriminate|eassumption|].
    destruct combinator; [now left..|now elim Hc].
  - reflexivity.
  - intros r0 r1 r2 m0 m2. rewrite typing_collect. cbn [flat_map triggered app].
    rewrite ?included_without_mandatory by (repeat constructor).
    now rewrite !(keywordType_letter laws) by (reflexivity || discriminate).
Qed.

(** *** Groups *)

Lemma groupIsCollapsed_iff multiplier :
  groupIsCollapsed multiplier = true <->
  exists m, multiplier = Some m /\
    ((exists min max, m = IMultiplierQurlyBracet min max /\ (min > 1 \/ max = 1))
     \/ sign m = Multiplier.Asterisk \/ sign m = Multiplier.PlusSign
     \/ sign m = Multiplier.HashMark \/ sign m = Multiplier.ExclamationPoint).
Proof.
  unfold groupIsCollapsed.
  destruct multiplier as [m|]; [|split; [discriminate|]].
  - rewrite !orb_true_iff, andb_true_iff, orb_true_iff, !bool_decide_eq_true.
    unfold isQurlyBracetMultiplier. rewrite bool_decide_eq_true. split.
    + intros H. exists m. split; [reflexivity|].
      destruct H as [[[[[H1 H2]|H]|H]|H]|H]; auto.
      left. destruct m as [s|lo hi]; [now destruct H2|].
      exists lo, hi. cbn in H2. split; [reflexivity|lia].
    + intros (m' & [= <-] & [(lo & hi & -> & H)|[H|[H|[H|H]]]]); auto 6.
      do 4 left. cbn. split; [reflexivity|lia].
  - intros (m & H & _). discriminate.
Qed.

(** C2: an included group adds [String] exactly when its multiplier is a
    range with [min > 1] or [max = 1], or one of [*], [+], [#], [!]; then
    every descriptor of the typing of its own entities goes through [add],
    in order, so that each of them is in the output or the output holds one
    that passes the presence test against it.  A group [[a]*] gives [String]
    and then the literal ["a"]. *)
Theorem group_collapse_and_merge (laws : JS.Laws rt) :
  (forall entities l ref nested multiplier,
      shouldIncludeComponent entities (IComponentGroup ref nested multiplier) = true ->
      body typing_nested entities l (IComponentGroup ref nested multiplier) =
        fold_left (fun l type => add type l) (typing nested)
          (if groupIsCollapsed multiplier then addString l else l))
  /\ (forall multiplier,
        groupIsCollapsed multiplier = true <->
        exists m, multiplier = Some m /\
          ((exists min max,
               m = IMultiplierQurlyBracet min max /\ (min > 1 \/ max = 1))
           \/ sign m = Multiplier.Asterisk \/ sign m = Multiplier.PlusSign
           \/ sign m = Multiplier.HashMark
           \/ sign m = Multiplier.ExclamationPoint))
  /\ (forall entities ref nested multiplier,
        In (IComponentGroup ref nested multiplier) entities ->
        shouldIncludeComponent entities (IComponentGroup ref nested multiplier) = true ->
        (groupIsCollapsed multiplier = true -> In (IBasic Ty.String) (typing entities))
        /\ (forall type,
              In type (typing nested) ->
              In type (typing entities) \/ present type (typing entities) = true))
  /\ (forall r0 r1 m,
        typing [IComponentGroup r0 [IComponentKeyword r1 "a" m]
                  (Some (IMultiplierSimple Multiplier.Asterisk))]
        = [IBasic Ty.String; IStringLiteral "a"]).
Proof.
  split; [|split; [|split]].
  - intros entities l ref nested multiplier H. cbn [body isComponent].
    now rewrite H, typing_nested_group.
  - apply groupIsCollapsed_iff.
  - intros entities ref nested multiplier Hin H. split.
    + intros Hm. eapply typing_triggered; [discriminate|eassumption|].
      cbn [triggered]. rewrite H, Hm. now left.
    + intros type Ht. eapply typing_reaches; [eassumption|].
      cbn [triggered]. rewrite H. apply in_app_iff. now right.
  - intros r0 r1 m. rewrite typing_collect. cbn [flat_map triggered app].
    rewrite ?included_without_mandatory by (repeat constructor).
    rewrite typing_collect. cbn [flat_map triggered app].
    rewrite ?included_without_mandatory by (repeat constructor).
    now rewrite (keywordType_letter laws) by (reflexivity || discriminate).
Qed.

(** C10: a group the filter leaves out changes nothing: the loop body
    returns the accumulator it was given, and the result is that of the
    loop over the other entities of the array. *)
Theorem excluded_group_contributes_nothing entities pre post ref nested multiplier :
  entities = pre ++ IComponentGroup ref nested multiplier :: post ->
  shouldIncludeComponent entities (IComponentGroup ref nested multiplier) = false ->
  (forall l, body typing_nested entities l (IComponentGroup ref nested multiplier) = l)
  /\ triggered entities (IComponentGroup ref nested multiplier) = []
  /\ typing entities = types (loop entities (pre ++ post) initial).
Proof.
  intros Hsplit Hout.
  assert (Hbody : forall l,
    body typing_nested entities l (IComponentGroup ref nested multiplier) = l).
  { intros l. cbn [body isComponent]. now rewrite Hout. }
  split; [assumption|]. split.
  - cbn [triggered]. now rewrite Hout.
  - unfold typing, loop. rewrite Hsplit at 2.
    rewrite !fold_left_app. cbn [fold_left]. now rewrite Hbody.
Qed.

(** *** Data types *)

Lemma substring_drop_last s :
  substring 0 (String.length s - 1) s = drop_last s.
Proof.
  induction s as [|c s IH]; [reflexivity|].
  destruct s as [|c' s']; [reflexivity|].
  cbn [String.length Nat.sub] in *. rewrite Nat.sub_0_r in *.
  change (substring 0 (S (String.length s')) (String.String c (String.String c' s')))
    with (String.String c (substring 0 (String.length s') (String.String c' s'))).
  now rewrite IH.
Qed.

Lemma slice_strip_ends s : JS.slice s 1 (-1) = strip_ends s.
Proof.
  unfold JS.slice, JS.relative_index. destruct s as [|c s]; [reflexivity|].
  cbn [String.length strip_ends]. rewrite <- substring_drop_last.
  replace (1 <? 0) with false by reflexivity.
  replace (-1 <? 0) with true by reflexivity.
  replace (Z.to_nat (Z.min 1 (Z.of_nat (S (String.length s))))) with 1%nat by lia.
  replace (Z.to_nat _) with (String.length s - 1)%nat by lia.
  reflexivity.
Qed.

Lemma indexOf_quote s : (JS.indexOf s "'" =? 0) = starts_with_quote s.
Proof.
  unfold JS.indexOf. destruct s as [|c s]; [reflexivity|].
  cbn [index String.prefix starts_with_quote].
  destruct (ascii_dec "'" c) as [<-|Hne].
  - now destruct s.
  - destruct (Ascii.eqb_spec c "'") as [->|_]; [now elim Hne|].
    destruct (index 0 "'" s); [|reflexivity].
    apply Z.eqb_neq. lia.
Qed.

Lemma dataTypeType_strip_ends value :
  dataTypeType value =
    let name := strip_ends value in
    if starts_with_quote name then Some (IBasic Ty.String)
    else match basicDataTypes !! name with
         | Some basic => Some (IBasic basic)
         | None => if JS.inherited name then None else Some (IDataType name)
         end.
Proof.
  unfold dataTypeType. cbn zeta. now rewrite slice_strip_ends, indexOf_quote.
Qed.

(** C5: an included data type loses the first and the last character of
    its text; what is left adds [String] when it starts with a quote, the
    entry of the catalog when it is one of its keys, and the reference
    [DataType] to that name when it is a property of no object; the
    descriptor added is in the output.  A name that is no key of the catalog
    but a property of every object, such as [toString], passes the test
    [value in basicDataTypes] all the same: nothing is added, and the array
    of that one component types to the empty list where the rule gives the
    reference [DataType] to the name. *)
Theorem data_type_descriptor entities ref value multiplier :
  shouldIncludeComponent entities (IComponentDataType ref value multiplier) = true ->
  let name := strip_ends value in
  (forall l,
      body typing_nested entities l (IComponentDataType ref value multiplier) =
        if starts_with_quote name then addString l
        else match basicDataTypes !! name with
             | Some Ty.Number => addNumber l
             | Some Ty.Length => addLength l
             | Some Ty.String => addString l
             | None => if JS.inherited name then l else addDataType name l
             end)
  /\ (In (IComponentDataType ref value multiplier) entities ->
      starts_with_quote name = true \/ is_Some (basicDataTypes !! name)
      \/ JS.inherited name = false ->
      In (if starts_with_quote name then IBasic Ty.String
          else match basicDataTypes !! name with
               | Some basic => IBasic basic
               | None => IDataType name
               end)
         (typing entities))
  /\ (starts_with_quote name = false -> basicDataTypes !! name = None ->
      JS.inherited name = true ->
      typing [IComponentDataType ref value multiplier] = []
      /\ ~ In (IDataType name) (typing [IComponentDataType ref value multiplier])).
Proof.
  intros H name. split; [|split].
  - intros l. cbn [body isComponent]. rewrite H. cbn zeta.
    rewrite slice_strip_ends, indexOf_quote, has_property_lookup. fold name.
    destruct (starts_with_quote name); [reflexivity|].
    destruct (basicDataTypes !! name) as [[]|]; [reflexivity..|].
    now destruct (JS.inherited name).
  - intros Hin Hrule.
    eapply typing_triggered; [|eassumption|].
    + intros x. destruct (starts_with_quote name); [discriminate|].
      destruct (basicDataTypes !! name); discriminate.
    + cbn [triggered]. rewrite H. unfold dataTypeType. cbn zeta.
      rewrite slice_strip_ends, indexOf_quote. fold name.
      destruct (starts_with_quote name); [now left|].
      destruct (basicDataTypes !! name) as [basic|]; [now left|].
      destruct Hrule as [Hq|[[basic Hb]|Hown]]; [discriminate..|].
      rewrite Hown. now left.
  - intros Hquote Hkey Hinherited.
    assert (Hnothing : typing [IComponentDataType ref value multiplier] = []).
    { rewrite typing_collect. cbn [flat_map triggered].
      rewrite included_without_mandatory by (repeat constructor).
      unfold dataTypeType. cbn zeta.
      rewrite slice_strip_ends, indexOf_quote. fold name.
      now rewrite Hquote, Hkey, Hinherited. }
    rewrite Hnothing. split; [reflexivity|]. intros [].
Qed.

(** *** The catalog *)

Lemma basicDataTypes_reduce :
  basicDataTypes = fold_left reducer (cssTypes ++ ["hex-color"]) ∅.
Proof.
  unfold basicDataTypes. generalize (∅ : gmap string Ty.basic).
  induction (cssTypes ++ ["hex-color"]) as [|name names IH]; intros dataTypes;
    [reflexivity|].
  cbn [fold_left]. rewrite IH. f_equal.
  unfold reducer, classify. repeat case_bool_decide; reflexivity.
Qed.

Lemma fold_reducer_lookup names dataTypes name :
  fold_left reducer names dataTypes !! name =
    if bool_decide (name ∈ names) then
      match classify name with
      | Some basic => Some basic
      | None => dataTypes !! name
      end
    else dataTypes !! name.
Proof.
  revert dataTypes.
  induction names as [|n names IH]; intros dataTypes; [reflexivity|].
  cbn [fold_left]. rewrite IH. unfold reducer.
  destruct (decide (n = name)) as [->|Hne].
  - rewrite (bool_decide_eq_true_2 (name ∈ name :: names)) by left.
    destruct (classify name) as [b|] eqn:E;
      rewrite ?lookup_insert_eq; now case_bool_decide.
  - assert (Hin : name ∈ n :: names <-> name ∈ names).
    { rewrite elem_of_cons. split; [intros [E|?]; [congruence|assumption]|auto]. }
    rewrite (bool_decide_ext _ _ Hin).
    destruct (classify n); rewrite ?lookup_insert_ne by assumption; reflexivity.
Qed.

(** C8: the catalog holds exactly the keys of types.json and
    ["hex-color"] that the reducer keeps: [number] and [integer] as
    [Number], [length] as [Length], any other name syntaxes.json does not
    define as [String], and no entry for a name it defines.  With
    [hex-color] not defined there, [hex-color] is [String]. *)
Theorem catalog_contents :
  (forall name,
      basicDataTypes !! name =
        if bool_decide (name ∈ cssTypes ++ ["hex-color"]) then
          if bool_decide (name = "number" \/ name = "integer") then Some Ty.Number
          else if bool_decide (name = "length") then Some Ty.Length
          else if bool_decide (name ∈ syntaxes) then None
          else Some Ty.String
        else None)
  /\ ("hex-color" ∉ syntaxes -> basicDataTypes !! "hex-color" = Some Ty.String).
Proof.
  assert (Hall : forall name,
      basicDataTypes !! name =
        if bool_decide (name ∈ cssTypes ++ ["hex-color"]) then classify name
        else None).
  { intros name. rewrite basicDataTypes_reduce, fold_reducer_lookup.
    rewrite lookup_empty. now destruct (classify name). }
  split.
  - intros name. rewrite Hall. reflexivity.
  - intros Hhex.
    rewrite Hall, bool_decide_eq_true_2 by (apply elem_of_app; right; left).
    unfold classify. now rewrite (bool_decide_eq_false_2 _ Hhex).
Qed.

(** *** Shapes the typer does not model *)

Lemma String_is_no_literal : forall x, IBasic Ty.String <> INumericLiteral x.
Proof. discriminate. Qed.

Lemma mandatory_gives_String entities c :
  In c entities -> isCombinator c && isMandatoryCombinator c = true ->
  In (IBasic Ty.String) (typing entities).
Proof.
  intros Hin Hc. apply (typing_triggered entities c); auto using String_is_no_literal.
  destruct c as [| | |r c|]; try discriminate.
  cbn [triggered]. cbn [isCombinator andb] in Hc. rewrite Hc, orb_true_r.
  now left.
Qed.

Lemma excluded_gives_String entities entity :
  shouldIncludeComponent entities entity = false ->
  In (IBasic Ty.String) (typing entities).
Proof.
  intros (c & Hin & Hc)%excluded_has_mandatory.
  eapply mandatory_gives_String; eassumption.
Qed.

Lemma unsupported_gives_String entities entity :
  In entity entities -> unsupported entity = true ->
  In (IBasic Ty.String) (typing entities).
Proof.
  intros Hin Hun.
  destruct (isComponent entity && negb (shouldIncludeComponent entities entity))
    eqn:Hout.
  - apply andb_true_iff in Hout as [_ Hout%negb_true_iff].
    eapply excluded_gives_String, Hout.
  - apply (typing_triggered entities entity); auto using String_is_no_literal.
    destruct entity as [r v m|r v m|r nested m|r c|r];
      cbn [unsupported triggered isComponent andb] in *;
      rewrite ?negb_false_iff in Hout; rewrite ?Hout, ?Hun;
      try discriminate; try (now left).
    unfold dataTypeType. cbn zeta.
    rewrite slice_strip_ends, indexOf_quote, Hun. now left.
Qed.

(** *** Termination *)

Lemma nesting_In entities entity :
  In entity entities -> (depth entity <= nesting entities)%nat.
Proof.
  induction entities as [|e rest IH]; [intros []|].
  intros [->|Hin]; cbn; [lia|]. specialize (IH Hin). unfold nesting in IH. lia.
Qed.

Lemma body_nested_ext f g entities l entity :
  f entity = g entity -> body f entities l entity = body g entities l entity.
Proof.
  intros E. destruct entity; cbn [body isComponent isCombinator isFunction];
    try reflexivity.
  now rewrite E.
Qed.

Lemma body_not_included f g entities l entity :
  isComponent entity && shouldIncludeComponent entities entity = false ->
  body f entities l entity = body g entities l entity.
Proof.
  intros H. destruct entity; cbn [body isComponent isCombinator isFunction andb] in *;
    try reflexivity.
  now rewrite H.
Qed.

Lemma typing_calls_returns fuel entities :
  (nesting entities < fuel)%nat -> typing_calls fuel entities = Some (typing entities).
Proof.
  revert entities. induction fuel as [|fuel IH]; intros entities Hfuel; [lia|].
  cbn [typing_calls]. unfold typing, loop.
  assert (Hrest : forall rest l,
    (forall e, In e rest -> In e entities) ->
    fold_left
      (fun (acc : option Locals) (entity : EntityType) =>
         l ← acc;
         if isComponent entity && shouldIncludeComponent entities entity then
           match entity with
           | IComponentGroup _ nested _ =>
               result ← typing_calls fuel nested;
               Some (body (fun _ => result) entities l entity)
           | _ => Some (body (fun _ => []) entities l entity)
           end
         else Some (body (fun _ => []) entities l entity))
      rest (Some l)
    = Some (fold_left (body typing_nested entities) rest l)).
  { induction rest as [|e rest IHrest]; intros l Hsub; [reflexivity|].
    cbn [fold_left mbind option_bind].
    assert (He : In e entities) by (apply Hsub; now left).
    assert (Hstep :
      (if isComponent e && shouldIncludeComponent entities e then
         match e with
         | IComponentGroup _ nested _ =>
             result ← typing_calls fuel nested;
             Some (body (fun _ => result) entities l e)
         | _ => Some (body (fun _ => []) entities l e)
         end
       else Some (body (fun _ => []) entities l e))
      = Some (body typing_nested entities l e)).
    { destruct (isComponent e && shouldIncludeComponent entities e) eqn:Hinc.
      - destruct e as [r v m|r v m|r nested m|r c|r];
          try (f_equal; now apply body_nested_ext).
        apply nesting_In in He. cbn [depth] in He. fold (nesting nested) in He.
        rewrite IH by lia. reflexivity.
      - f_equal. now apply body_not_included. }
    rewrite Hstep. apply IHrest. intros e' He'. apply Hsub. now right. }
  now rewrite Hrest.
Qed.

(** C9: [typing] is a function on entity trees, defined by recursion on
    the tree: the recursive call of a group is on the entities of that
    group, and with more fuel than the groups nest the calls return the
    list [typing] gives.  Whenever a shape the typer does not model occurs
    anywhere in the tree, that list holds [String]. *)
Theorem typing_total_degrades entities :
  typing_calls (S (nesting entities)) entities = Some (typing entities)
  /\ (forall fuel,
        (nesting entities < fuel)%nat ->
        typing_calls fuel entities = Some (typing entities))
  /\ (forall entity,
        occurs entity entities -> unsupported entity = true ->
        In (IBasic Ty.String) (typing entities)).
Proof.
  split; [apply typing_calls_returns; lia|].
  split; [intros fuel; apply typing_calls_returns|].
  intros entity Hocc Hun.
  induction Hocc as [entities Hin|entities ref nested multiplier Hin Hocc IH].
  - eapply unsupported_gives_String; eassumption.
  - destruct (shouldIncludeComponent entities
                (IComponentGroup ref nested multiplier)) eqn:Hinc.
    + apply (typing_triggered entities (IComponentGroup ref nested multiplier));
        auto using String_is_no_literal.
      cbn [triggered]. rewrite Hinc. apply in_app_iff. right. now apply IH.
    + eapply excluded_gives_String, Hinc.
Qed.

(** *** Where the code leaves the specification *)

(** C1: for [a b c?] the typer is given the array [[a; J; b; J; c?]] with
    one combinator object [J] at both places.  By position [b] is followed
    by a mandatory combinator and then by the optional [c?], so the filter
    of the specification keeps it; [indexOf] finds [J] at its first place,
    from where the next entity is [b] itself, and the code leaves [b] out.
    With a second combinator object at the fourth place the code keeps
    [b]. *)
Theorem shared_combinator_misleads_filter :
  let a := IComponentKeyword 0 "a" None in
  let J := ICombinator 1 Combinator.Juxtaposition in
  let b := IComponentKeyword 2 "b" None in
  let c := IComponentKeyword 3 "c" (Some (IMultiplierSimple Multiplier.QuestionMark)) in
  let J' := ICombinator 4 Combinator.Juxtaposition in
  let entities := [a; J; b; J; c] in
  entities !! 2%nat = Some b
  /\ inclusion_filter entities 2 = true
  /\ nextEntity entities b = Some J
  /\ nextEntity entities J = Some b
  /\ shouldIncludeComponent entities b = false
  /\ typing entities = [IBasic Ty.String]
  /\ shouldIncludeComponent [a; J; b; J'; c] b = true
  /\ typing [a; J; b; J'; c] = [IBasic Ty.String; keywordType "b"].
Proof.
  cbn zeta. repeat split.
  rewrite typing_collect. cbn [flat_map triggered].
  change (shouldIncludeComponent _ (IComponentKeyword 0 "a" None)) with false.
  change (shouldIncludeComponent _ (IComponentKeyword 2 "b" None)) with true.
  change (shouldIncludeComponent _ (IComponentKeyword 3 "c" _)) with false.
  change (bool_decide _ || isMandatoryCombinator _) with true.
  unfold keywordType. now case_if.
Qed.

Lemma triggered_SingleBar entities ref :
  triggered entities (ICombinator ref Combinator.SingleBar) = [].
Proof. reflexivity. Qed.

(** C6: the presence test of [addNumericLiteral] is [===], which [NaN]
    fails against itself: [NaN | NaN] gives the numeric literal [NaN]
    twice. *)
Theorem NaN_literal_twice (laws : JS.Laws rt) :
  typing [IComponentKeyword 0 "NaN" None;
          ICombinator 1 Combinator.SingleBar;
          IComponentKeyword 2 "NaN" None]
  = [INumericLiteral JS.NaN; INumericLiteral JS.NaN].
Proof.
  rewrite typing_collect. cbn [flat_map]. rewrite triggered_SingleBar.
  cbn [triggered app].
  rewrite ?included_without_mandatory by (repeat constructor).
  rewrite (keywordType_NaN laws). cbn.
  now rewrite JS.strict_equal_NaN_l.
Qed.

(** C7: in [NaN | auto | NaN] the descriptor of the first keyword is in
    the accumulator when the loop reaches the last one, and it is pushed
    again behind the literal ["auto"]. *)
Theorem NaN_literal_inserted_again (laws : JS.Laws rt) :
  let first := IComponentKeyword 0 "NaN" None in
  let bar := ICombinator 1 Combinator.SingleBar in
  let auto := IComponentKeyword 2 "auto" None in
  let last := IComponentKeyword 3 "NaN" None in
  let entities := [first; bar; auto; bar; last] in
  types (loop entities [first; bar; auto; bar] initial)
    = [INumericLiteral JS.NaN; IStringLiteral "auto"]
  /\ triggered entities last = [INumericLiteral JS.NaN]
  /\ typing entities
    = [INumericLiteral JS.NaN; IStringLiteral "auto"; INumericLiteral JS.NaN].
Proof.
  cbn zeta. rewrite typing_collect, loop_triggered.
  rewrite add_all_types by apply flags_ok_initial.
  cbn [flat_map]. rewrite !triggered_SingleBar. cbn [triggered app].
  rewrite ?included_without_mandatory by (repeat constructor).
  rewrite (keywordType_NaN laws).
  rewrite (keywordType_letter laws) by (reflexivity || discriminate).
  cbn. rewrite JS.strict_equal_NaN_l. repeat split.
Qed.

End Properties.

(** ** Further properties of the helpers and of the loop *)

Section Further.

Context {rt : JS.Runtime} {data : MdnData}.

(** *** The [add...] helpers *)

Lemma add_appends type l :
  types (add type l) = types l \/ types (add type l) = types l ++ [type].
Proof.
  destruct type as [[]| | |]; cbn [add];
    unfold addString, addNumber, addLength,
      addStringLiteral, addNumericLiteral, addDataType;
    case_if; auto.
Qed.

Lemma add_all_prefix stream l : types l `prefix_of` types (add_all stream l).
Proof.
  revert l. induction stream as [|t stream IH]; intros l; cbn; [reflexivity|].
  etransitivity; [|apply IH].
  destruct (add_appends t l) as [-> | ->]; [reflexivity|now apply prefix_app_r].
Qed.

(** X1: adding a descriptor a second time changes nothing, for every
    descriptor that passes the presence test against itself: the three
    basic descriptors, string literals, data types, and the numeric
    literals that are [===] to themselves. *)
Theorem add_twice type l :
  same type type = true -> add type (add type l) = add type l.
Proof.
  intros Hrefl.
  destruct type as [[]|v|x|v]; cbn [add same] in *.
  - unfold addString. destruct (hasString l) eqn:E; cbn; now rewrite ?E.
  - unfold addNumber. destruct (hasNumber l) eqn:E; cbn; now rewrite ?E.
  - unfold addLength. destruct (hasLength l) eqn:E; cbn; now rewrite ?E.
  - unfold addStringLiteral.
    destruct (forallb _ (types l)) eqn:E; cbn; [|now rewrite E].
    rewrite forallb_app. cbn. now rewrite Hrefl, andb_false_r.
  - unfold addNumericLiteral.
    destruct (forallb _ (types l)) eqn:E; cbn; [|now rewrite E].
    rewrite forallb_app. cbn. now rewrite Hrefl, andb_false_r.
  - unfold addDataType.
    destruct (forallb _ (types l)) eqn:E; cbn; [|now rewrite E].
    rewrite forallb_app. cbn. now rewrite Hrefl, andb_false_r.
Qed.

(** X2: the loop only appends: whatever accumulator it starts from, the
    descriptors that accumulator holds are the start of the list it ends
    with, in the same order. *)
Theorem loop_only_appends entities rest l :
  types l `prefix_of` types (loop entities rest l)
  /\ (length (types (loop entities rest l))
      <= length (types l) + length (flat_map (triggered entities) rest))%nat.
Proof.
  rewrite loop_triggered. split; [apply add_all_prefix|].
  generalize (flat_map (triggered entities) rest) as stream. intros stream.
  revert l. induction stream as [|t stream IH]; intros l; cbn; [lia|].
  specialize (IH (add t l)). unfold add_all in IH.
  destruct (add_appends t l) as [E|E]; rewrite E in IH;
    rewrite ?length_app in IH; cbn in IH; lia.
Qed.

Lemma present_basic basic ts :
  present (IBasic basic) ts = true <-> In (IBasic basic) ts.
Proof.
  unfold present. rewrite existsb_exists. split.
  - intros (old & Hin & Hsame).
    destruct old as [b| | |]; try discriminate.
    cbn in Hsame. apply bool_decide_eq_true in Hsame. now subst.
  - intros Hin. exists (IBasic basic). split; [assumption|].
    cbn. now apply bool_decide_eq_true.
Qed.

(** X3: at every point of the loop of [typing] the three flags say what
    the list holds: [hasString] is set exactly when [String] is in
    [types], and so for [hasLength] and [hasNumber]. *)
Theorem flags_follow_types entities rest :
  let l := loop entities rest initial in
  (hasString l = true <-> In (IBasic Ty.String) (types l))
  /\ (hasLength l = true <-> In (IBasic Ty.Length) (types l))
  /\ (hasNumber l = true <-> In (IBasic Ty.Number) (types l)).
Proof.
  cbn zeta.
  destruct (loop_flags_ok entities rest initial flags_ok_initial) as (HL & HS & HN).
  rewrite HL, HS, HN. repeat split; apply present_basic.
Qed.

(** *** Neighbours *)

Lemma indexOf_first pre found post entity :
  ref_of found = ref_of entity ->
  Forall (fun e => ref_of e <> ref_of entity) pre ->
  indexOf (pre ++ found :: post) entity = Z.of_nat (length pre).
Proof.
  intros Hfound Hpre. induction Hpre as [|e pre Hne Hpre IH]; cbn.
  - now rewrite Hfound, Nat.eqb_refl.
  - destruct (Nat.eqb_spec (ref_of e) (ref_of entity)) as [E|_]; [now elim Hne|].
    rewrite IH. destruct (Z.ltb_spec (Z.of_nat (length pre)) 0); lia.
Qed.

Lemma indexOf_absent entities entity :
  Forall (fun e => ref_of e <> ref_of entity) entities ->
  indexOf entities entity = -1.
Proof.
  intros H. induction H as [|e rest Hne Hrest IH]; cbn; [reflexivity|].
  destruct (Nat.eqb_spec (ref_of e) (ref_of entity)) as [E|_]; [now elim Hne|].
  now rewrite IH.
Qed.

(** X4: [previousEntity] and [nextEntity] look from the first place the
    object has in the array: they return the entity before and the entity
    after that place, whatever the place of the entity the loop is at. *)
Theorem neighbours_of_first_occurrence pre found post entity :
  ref_of found = ref_of entity ->
  Forall (fun e => ref_of e <> ref_of entity) pre ->
  previousEntity (pre ++ found :: post) entity = last pre
  /\ nextEntity (pre ++ found :: post) entity = head post.
Proof.
  intros Hfound Hpre. unfold previousEntity, nextEntity, at_index.
  rewrite (indexOf_first pre found post entity Hfound Hpre). split.
  - destruct pre as [|e pre] using rev_ind; [reflexivity|].
    rewrite length_app, last_snoc. cbn [length].
    destruct (Z.ltb_spec (Z.of_nat (length pre + 1) - 1) 0); [lia|].
    replace (Z.to_nat (Z.of_nat (length pre + 1) - 1)) with (length pre) by lia.
    rewrite <- app_assoc. cbn [app]. now apply list_lookup_middle.
  - destruct (Z.ltb_spec (Z.of_nat (length pre) + 1) 0); [lia|].
    replace (Z.to_nat (Z.of_nat (length pre) + 1)) with (S (length pre)) by lia.
    rewrite lookup_app_r by lia.
    replace (S (length pre) - length pre)%nat with 1%nat by lia.
    now destruct post.
Qed.

(** X5: for an object that is not in the array [indexOf] is [-1]:
    [nextEntity] returns the first entity of the array and [previousEntity]
    returns nothing. *)
Theorem neighbours_of_absent entities entity :
  Forall (fun e => ref_of e <> ref_of entity) entities ->
  nextEntity entities entity = head entities
  /\ previousEntity entities entity = None.
Proof.
  intros H. unfold previousEntity, nextEntity, at_index.
  rewrite (indexOf_absent entities entity H). split; [|reflexivity].
  now destruct entities.
Qed.

(** X6: in an array of pairwise different objects the neighbours of the
    entity at index [i] are the entities at [i - 1] and [i + 1], nothing
    before the first and after the last one, and [shouldIncludeComponent]
    is the filter by position. *)
Theorem filter_by_position entities i entity :
  distinct_objects entities ->
  entities !! i = Some entity ->
  nextEntity entities entity = entities !! S i
  /\ previousEntity entities entity
     = match i with O => None | S j => entities !! j end
  /\ shouldIncludeComponent entities entity
     = inclusion_filter entities (Z.of_nat i).
Proof.
  intros Hd Hi. split; [|split].
  - unfold nextEntity, at_index. rewrite (indexOf_distinct _ _ _ Hd Hi).
    destruct (Z.ltb_spec (Z.of_nat i + 1) 0); [lia|].
    now replace (Z.to_nat (Z.of_nat i + 1)) with (S i) by lia.
  - unfold previousEntity, at_index. rewrite (indexOf_distinct _ _ _ Hd Hi).
    destruct i as [|j]; [reflexivity|].
    destruct (Z.ltb_spec (Z.of_nat (S j) - 1) 0); [lia|].
    now replace (Z.to_nat (Z.of_nat (S j) - 1)) with j by lia.
  - now apply shouldIncludeComponent_distinct.
Qed.

(** *** Alternatives of keywords *)

Lemma collect_new_literals seen texts :
  NoDup texts ->
  Forall (fun v => present (IStringLiteral v) seen = false) texts ->
  collect seen (map IStringLiteral texts) = seen ++ map IStringLiteral texts.
Proof.
  intros Hnodup. revert seen.
  induction Hnodup as [|v texts Hnotin Hnodup IH]; intros seen Hnew; cbn.
  - now rewrite app_nil_r.
  - apply Forall_cons in Hnew as [Hv Hnew]. rewrite Hv.
    rewrite IH; [now rewrite <- app_assoc|].
    rewrite Forall_forall in Hnew |- *. intros v' Hv'.
    rewrite present_app, (Hnew v' Hv'). cbn. rewrite orb_false_r.
    apply String.eqb_neq. intros ->. contradiction.
Qed.

Lemma keyword_or_bar_not_mandatory entities :
  Forall (fun e => keyword_or_bar e = true) entities ->
  Forall (fun c => isMandatoryCombinator c = false) entities.
Proof.
  intros H. apply (Forall_impl _ _ _ H).
  intros [r v m|r v m|r nested m|r c|r]; cbn; try reflexivity.
  intros ->%bool_decide_eq_true. reflexivity.
Qed.

(** X7: for keywords separated by [|], with pairwise different texts none
    of which is the print of its own number, [typing] returns the string
    literals of the texts, one for each keyword, in the order of the
    array. *)
Theorem keyword_alternatives entities :
  Forall (fun e => keyword_or_bar e = true) entities ->
  NoDup (keyword_texts entities) ->
  Forall (fun v => String.eqb (JS.String (JS.Number v)) v = false)
    (keyword_texts entities) ->
  typing entities = map IStringLiteral (keyword_texts entities).
Proof.
  intros Hshape Hnodup Htexts.
  assert (Hinc : forall e, shouldIncludeComponent entities e = true).
  { intros e. now apply included_without_mandatory, keyword_or_bar_not_mandatory. }
  assert (Hstream : forall rest,
    Forall (fun e => keyword_or_bar e = true) rest ->
    Forall (fun v => String.eqb (JS.String (JS.Number v)) v = false)
      (keyword_texts rest) ->
    flat_map (triggered entities) rest = map IStringLiteral (keyword_texts rest)).
  { induction rest as [|e rest IH]; intros Hr Ht; [reflexivity|].
    apply Forall_cons in Hr as [He Hr].
    unfold keyword_texts in Ht. cbn [flat_map] in Ht. apply Forall_app in Ht as [Hv Ht].
    unfold keyword_texts. cbn [flat_map]. rewrite map_app.
    fold (keyword_texts rest). rewrite (IH Hr Ht). f_equal.
    destruct e as [r v m|r v m|r nested m|r c|r]; try discriminate.
    - cbn [triggered]. rewrite Hinc. unfold keywordType.
      apply Forall_cons in Hv as [-> _]. reflexivity.
    - cbn in He. apply bool_decide_eq_true in He as ->. reflexivity. }
  rewrite typing_collect, (Hstream entities Hshape Htexts).
  apply (collect_new_literals [] _ Hnodup).
  apply Forall_forall. reflexivity.
Qed.

(** *** What the filter leaves out *)

(** X8: whenever the filter leaves a component out, the array holds a
    mandatory combinator and the output holds [String]. *)
Theorem left_out_leaves_String entities entity :
  shouldIncludeComponent entities entity = false ->
  (exists c, In c entities /\ isCombinator c && isMandatoryCombinator c = true)
  /\ In (IBasic Ty.String) (typing entities).
Proof.
  intros H. split.
  - exact (excluded_has_mandatory entities entity H).
  - exact (excluded_gives_String entities entity H).
Qed.

(** *** The output as a set *)

(** X9: no descriptor other than a numeric literal is in the output
    twice, and of two numeric literals of the output the earlier is not
    [===] to the later. *)
Theorem typing_unique entities :
  (forall i j type,
      typing entities !! i = Some type -> typing entities !! j = Some type ->
      (forall x, type <> INumericLiteral x) -> i = j)
  /\ (forall i j a b,
        (i < j)%nat ->
        typing entities !! i = Some (INumericLiteral a) ->
        typing entities !! j = Some (INumericLiteral b) ->
        JS.strict_equal a b = false).
Proof.
  split.
  - intros i j type Hi Hj Hty.
    destruct (decide (i = j)) as [|Hne]; [assumption|].
    destruct (typing_repeats_only_NaN entities i j type Hne Hi Hj) as (x & -> & _).
    now elim (Hty x).
  - intros i j a b Hij Hi Hj.
    exact (typing_pairwise_different entities i j _ _ Hij Hi Hj).
Qed.

Lemma pairwise_different_cons type ts :
  pairwise_different (type :: ts) ->
  Forall (fun later => same type later = false) ts /\ pairwise_different ts.
Proof.
  intros H. split.
  - apply Forall_forall. intros later [k Hk]%list_elem_of_lookup_1.
    exact (H 0%nat (S k) type later ltac:(lia) eq_refl Hk).
  - intros i j a b Hij Ha Hb.
    exact (H (S i) (S j) a b ltac:(lia) Ha Hb).
Qed.

(** Adding a list that is pairwise different leaves out exactly what the
    accumulator holds already. *)
Lemma collect_filter seen ts :
  pairwise_different ts ->
  collect seen ts = seen ++ List.filter (fun t => negb (present t seen)) ts.
Proof.
  revert seen. induction ts as [|t ts IH]; intros seen Hts; cbn.
  - now rewrite app_nil_r.
  - apply pairwise_different_cons in Hts as [Hlater Hts].
    destruct (present t seen) eqn:E; cbn; [now apply IH|].
    rewrite (IH _ Hts), <- app_assoc. cbn. do 2 f_equal.
    apply List.filter_ext_in. intros later Hin.
    rewrite present_app. cbn. rewrite orb_false_r.
    rewrite Forall_forall in Hlater.
    rewrite (Hlater later); [now rewrite orb_false_r|].
    now apply list_elem_of_In.
Qed.

(** X10: an array that is one group types as the entities of the group:
    to the same list when the multiplier of the group does not collapse it,
    and otherwise to [String] followed by that list without [String]. *)
Theorem lone_group ref nested multiplier :
  typing [IComponentGroup ref nested multiplier] =
    if groupIsCollapsed multiplier
    then IBasic Ty.String
           :: List.filter (fun t => negb (same (IBasic Ty.String) t)) (typing nested)
    else typing nested.
Proof.
  rewrite typing_collect. cbn [flat_map triggered].
  rewrite included_without_mandatory by (repeat constructor).
  rewrite app_nil_r, collect_app.
  rewrite (collect_filter _ _ (typing_pairwise_different nested)).
  destruct (groupIsCollapsed multiplier); cbn [collect present existsb app].
  - cbn. f_equal. apply List.filter_ext. intros t. now rewrite orb_false_r.
  - cbn [app]. clear.
    induction (typing nested) as [|t ts IH]; cbn; [reflexivity|]. now f_equal.
Qed.

Lemma collect_nil stream : collect [] stream = [] -> stream = [].
Proof.
  destruct stream as [|t stream]; [reflexivity|]. cbn. intros H.
  pose proof (collect_prefix [t] stream) as [more Hmore].
  rewrite H in Hmore. discriminate.
Qed.

Lemma flat_map_nil {A B} (f : A -> list B) (xs : list A) :
  flat_map f xs = [] <-> Forall (fun x => f x = []) xs.
Proof.
  induction xs as [|x xs IH]; cbn; [now split|].
  rewrite Forall_cons, <- IH. split.
  - intros [? ?]%app_eq_nil. now split.
  - intros [-> ->]. reflexivity.
Qed.

(** X11: [typing] returns the empty list exactly for the arrays that hold
    nothing but [|] combinators, groups without a collapsing multiplier
    whose own entities type to the empty list, and data types whose name is
    no key of the catalog but a property of every object; the empty array is
    one of them. *)
Theorem typing_nothing entities :
  typing entities = [] <-> Forall (fun e => silent e = true) entities.
Proof.
  rewrite typing_collect. split.
  - intros Hnil.
    assert (HString : ~ In (IBasic Ty.String) (typing entities)).
    { rewrite typing_collect, Hnil. intros []. }
    apply collect_nil, flat_map_nil in Hnil.
    apply (Forall_impl _ _ _ Hnil). intros e He.
    assert (Hinc : shouldIncludeComponent entities e = true).
    { destruct (shouldIncludeComponent entities e) eqn:E; [reflexivity|].
      elim HString. eapply excluded_gives_String, E. }
    destruct e as [r v m|r v m|r nested m|r c|r]; cbn [triggered silent] in *;
      rewrite ?Hinc in He; try discriminate.
    + rewrite dataTypeType_strip_ends in He. cbn zeta in *.
      destruct (starts_with_quote (strip_ends v)); [discriminate|].
      destruct (basicDataTypes !! strip_ends v); [discriminate|].
      rewrite bool_decide_true by reflexivity.
      now destruct (JS.inherited (strip_ends v)).
    + apply app_eq_nil in He as [Hm ->].
      destruct (groupIsCollapsed m); [discriminate|reflexivity].
    + destruct c; try discriminate. reflexivity.
  - intros Hsilent.
    assert (Hinc : forall e, shouldIncludeComponent entities e = true).
    { intros e. apply included_without_mandatory.
      apply (Forall_impl _ _ _ Hsilent).
      intros [r v m|r v m|r nested m|r c|r]; cbn; try reflexivity.
      intros ->%bool_decide_eq_true. reflexivity. }
    assert (Hstream : flat_map (triggered entities) entities = []).
    { apply flat_map_nil. apply (Forall_impl _ _ _ Hsilent).
      intros [r v m|r v m|r nested m|r c|r]; cbn [triggered silent];
        try discriminate.
      - rewrite Hinc, dataTypeType_strip_ends. cbn zeta.
        intros [[Hq Hkey%bool_decide_eq_true]%andb_true_iff Hi]%andb_true_iff.
        apply negb_true_iff in Hq. now rewrite Hq, Hkey, Hi.
      - rewrite Hinc. intros [Hm Hn]%andb_true_iff.
        apply negb_true_iff in Hm. rewrite Hm.
        now destruct (typing nested).
      - intros ->%bool_decide_eq_true. reflexivity. }
    now rewrite Hstream.
Qed.

(** *** Induction on the nesting of groups *)

Lemma nested_induction (P : list EntityType -> Prop) :
  (forall entities,
      (forall ref nested multiplier,
          In (IComponentGroup ref nested multiplier) entities -> P nested) ->
      P entities) ->
  forall entities, P entities.
Proof.
  intros step.
  assert (H : forall n entities, (nesting entities < n)%nat -> P entities).
  { induction n as [|n IH]; intros entities Hn; [lia|].
    apply step. intros ref nested multiplier Hin. apply IH.
    apply nesting_In in Hin. cbn [depth] in Hin. fold (nesting nested) in Hin.
    lia. }
  intros entities. apply (H (S (nesting entities))). lia.
Qed.

Lemma collect_length seen stream :
  (length (collect seen stream) <= length seen + length stream)%nat.
Proof.
  revert seen. induction stream as [|t stream IH]; intros seen; cbn; [lia|].
  specialize (IH (if present t seen then seen else seen ++ [t])).
  destruct (present t seen); rewrite ?length_app in IH; cbn in IH; lia.
Qed.

(** X12: [typing] returns at most as many descriptors as the tree has
    entities, the groups and what they hold counted. *)
Theorem typing_length entities :
  (length (typing entities) <= total_size entities)%nat.
Proof.
  revert entities.
  apply (nested_induction
           (fun entities => (length (typing entities) <= total_size entities)%nat)).
  intros entities IH.
  rewrite typing_collect.
  etransitivity; [apply collect_length|]. cbn [length Nat.add].
  assert (Hrest : forall rest,
    (forall e, In e rest -> In e entities) ->
    (length (flat_map (triggered entities) rest) <= total_size rest)%nat).
  { induction rest as [|e rest IHrest]; intros Hsub; [reflexivity|].
    cbn [flat_map total_size fold_right]. rewrite length_app.
    fold (total_size rest).
    assert (He : (length (triggered entities e) <= size e)%nat).
    { destruct e as [r v m|r v m|r nested m|r c|r]; cbn [triggered size].
      - case_if; cbn; lia.
      - case_if; [destruct (dataTypeType v)|]; cbn; lia.
      - fold (total_size nested).
        specialize (IH r nested m (Hsub _ (or_introl eq_refl))).
        destruct (shouldIncludeComponent entities _); [|cbn; lia].
        rewrite length_app. destruct (groupIsCollapsed m); cbn; lia.
      - case_if; cbn; lia.
      - cbn. lia. }
    specialize (IHrest (fun e' He' => Hsub e' (or_intror He'))). lia. }
  apply Hrest. auto.
Qed.

(** *** Where the descriptors come from *)

Lemma collect_sub seen stream type :
  In type (collect seen stream) -> In type seen \/ In type stream.
Proof.
  revert seen. induction stream as [|t stream IH]; intros seen H; cbn in *; [auto|].
  apply IH in H as [H|H]; [|auto].
  destruct (present t seen); [auto|].
  apply in_app_iff in H as [H|[<-|[]]]; auto.
Qed.

Lemma origin_nested type entities ref nested multiplier :
  In (IComponentGroup ref nested multiplier) entities ->
  origin type nested -> origin type entities.
Proof.
  intros Hin. destruct type as [[]|v|x|v]; cbn [origin]; [auto|..].
  - intros (r & v & m & Hocc & H). exists r, v, m. split; [|assumption].
    eapply occurs_nested; eassumption.
  - intros (r & v & m & Hocc & H). exists r, v, m. split; [|assumption].
    eapply occurs_nested; eassumption.
  - intros (r & m & Hocc & H). exists r, m. split; [|assumption].
    eapply occurs_nested; eassumption.
  - intros (r & v' & m & Hocc & H). exists r, v', m. split; [|assumption].
    eapply occurs_nested; eassumption.
  - intros (r & v' & m & Hocc & H). exists r, v', m. split; [|assumption].
    eapply occurs_nested; eassumption.
Qed.

Lemma typing_origin_all entities :
  forall type, In type (typing entities) -> origin type entities.
Proof.
  revert entities.
  apply (nested_induction
           (fun entities => forall type,
                In type (typing entities) -> origin type entities)).
  intros entities IH type Hin.
  rewrite typing_collect in Hin. apply collect_sub in Hin as [[]|Hin].
  apply in_flat_map in Hin as (e & He & Ht).
  destruct e as [r v m|r v m|r nested m|r c|r]; cbn [triggered] in Ht.
  - destruct (shouldIncludeComponent entities _); [|destruct Ht].
    destruct Ht as [<-|[]]. unfold keywordType.
    destruct (String.eqb _ v) eqn:E; cbn [origin].
    + exists r, v, m. split; [now constructor|]. now split.
    + exists r, m. split; [now constructor|assumption].
  - destruct (shouldIncludeComponent entities _); [|destruct Ht].
    rewrite dataTypeType_strip_ends in Ht. cbn zeta in Ht.
    destruct (starts_with_quote (strip_ends v)) eqn:Eq;
      [destruct Ht as [<-|[]]; exact I|].
    destruct (basicDataTypes !! strip_ends v) as [[]|] eqn:Eb.
    + destruct Ht as [<-|[]]. exact I.
    + destruct Ht as [<-|[]]. exists r, v, m. split; [now constructor|]. now split.
    + destruct Ht as [<-|[]]. exists r, v, m. split; [now constructor|]. now split.
    + destruct (JS.inherited (strip_ends v)) eqn:Ei; [destruct Ht|].
      destruct Ht as [<-|[]]. exists r, v, m. split; [now constructor|].
      now repeat split.
  - destruct (shouldIncludeComponent entities _); [|destruct Ht].
    apply in_app_iff in Ht as [Ht|Ht].
    + destruct (groupIsCollapsed m); [|destruct Ht].
      destruct Ht as [<-|[]]. exact I.
    + eapply origin_nested; [eassumption|]. eapply IH; eassumption.
  - destruct (bool_decide _ || isMandatoryCombinator _); [|destruct Ht].
    destruct Ht as [<-|[]]. exact I.
  - destruct Ht as [<-|[]]. exact I.
Qed.

(** X13: [typing] makes up no literal and no name: a string literal of
    the output is the text of a keyword of the tree that is not the print
    of its number, a numeric literal is the number of a keyword that is, a
    [DataType] reference is the unquoted name of a data type of the tree
    that the catalog does not hold and that is no property of every object,
    and [Number] and [Length] are the catalog entries of a data type of the
    tree. *)
Theorem typing_origin entities :
  (forall literal,
      In (IStringLiteral literal) (typing entities) ->
      exists ref multiplier,
        occurs (IComponentKeyword ref literal multiplier) entities
        /\ String.eqb (JS.String (JS.Number literal)) literal = false)
  /\ (forall literal,
        In (INumericLiteral literal) (typing entities) ->
        exists ref value multiplier,
          occurs (IComponentKeyword ref value multiplier) entities
          /\ literal = JS.Number value
          /\ String.eqb (JS.String (JS.Number value)) value = true)
  /\ (forall name,
        In (IDataType name) (typing entities) ->
        exists ref value multiplier,
          occurs (IComponentDataType ref value multiplier) entities
          /\ name = strip_ends value
          /\ starts_with_quote name = false
          /\ basicDataTypes !! name = None
          /\ JS.inherited name = false)
  /\ (forall basic,
        basic <> Ty.String ->
        In (IBasic basic) (typing entities) ->
        exists ref value multiplier,
          occurs (IComponentDataType ref value multiplier) entities
          /\ starts_with_quote (strip_ends value) = false
          /\ basicDataTypes !! strip_ends value = Some basic).
Proof.
  split; [|split; [|split]].
  - intros literal H. exact (typing_origin_all entities _ H).
  - intros literal H. exact (typing_origin_all entities _ H).
  - intros name H. exact (typing_origin_all entities _ H).
  - intros basic Hb H. pose proof (typing_origin_all entities _ H) as Ho.
    destruct basic; [now elim Hb|exact Ho|exact Ho].
Qed.

(** *** Alternatives side by side *)

Lemma at_index_app_l es1 es2 k :
  k < Z.of_nat (length es1) -> at_index (es1 ++ es2) k = at_index es1 k.
Proof.
  intros Hk. unfold at_index. destruct (Z.ltb_spec k 0); [reflexivity|].
  apply lookup_app_l. lia.
Qed.

Lemma at_index_app_r es1 es2 k :
  0 <= k -> at_index (es1 ++ es2) (Z.of_nat (length es1) + k) = at_index es2 k.
Proof.
  intros Hk. unfold at_index.
  destruct (Z.ltb_spec (Z.of_nat (length es1) + k) 0); [lia|].
  destruct (Z.ltb_spec k 0); [lia|].
  rewrite lookup_app_r by lia. f_equal. lia.
Qed.

Lemma at_index_end entities : at_index entities (Z.of_nat (length entities)) = None.
Proof.
  unfold at_index. destruct (Z.ltb_spec (Z.of_nat (length entities)) 0); [lia|].
  apply lookup_ge_None. lia.
Qed.

Lemma probe_left test es1 sep es2 k :
  test sep = false -> k <= Z.of_nat (length es1) ->
  probe test (es1 ++ sep :: es2) k = probe test es1 k.
Proof.
  intros Hsep Hk. unfold probe.
  destruct (decide (k = Z.of_nat (length es1))) as [->|Hne].
  - rewrite at_index_end.
    replace (Z.of_nat (length es1)) with (Z.of_nat (length es1) + 0) by lia.
    rewrite at_index_app_r by lia. exact Hsep.
  - now rewrite at_index_app_l by lia.
Qed.

Lemma probe_right test es1 sep es2 k :
  test sep = false -> -1 <= k ->
  probe test (es1 ++ sep :: es2) (Z.of_nat (length es1) + 1 + k) = probe test es2 k.
Proof.
  intros Hsep Hk. unfold probe.
  destruct (decide (k = -1)) as [->|Hne].
  - replace (Z.of_nat (length es1) + 1 + -1) with (Z.of_nat (length es1) + 0) by lia.
    rewrite at_index_app_r by lia. exact Hsep.
  - replace (es1 ++ sep :: es2) with ((es1 ++ [sep]) ++ es2)
      by now rewrite <- app_assoc.
    replace (Z.of_nat (length es1) + 1 + k)
      with (Z.of_nat (length (es1 ++ [sep])) + k)
      by (rewrite length_app; cbn; lia).
    now rewrite at_index_app_r by lia.
Qed.

Lemma inclusion_filter_left es1 sep es2 (i : nat) :
  isComponent sep = false -> isMandatoryCombinator sep = false ->
  (i < length es1)%nat ->
  inclusion_filter (es1 ++ sep :: es2) (Z.of_nat i) = inclusion_filter es1 (Z.of_nat i).
Proof.
  intros Hcomp Hmand Hi. unfold inclusion_filter.
  change mandatoryCombinatorAt
    with (probe (fun c => isCombinator c && isMandatoryCombinator c)).
  change optionalComponentAt
    with (probe (fun c => isComponent c && isOptionalComponent c)).
  assert (Hm : isCombinator sep && isMandatoryCombinator sep = false)
    by now rewrite Hmand, andb_false_r.
  assert (Ho : isComponent sep && isOptionalComponent sep = false)
    by now rewrite Hcomp.
  rewrite !(probe_left _ es1 sep es2 (Z.of_nat i - 1)) by (assumption || lia).
  rewrite !(probe_left _ es1 sep es2 (Z.of_nat i - 2)) by (assumption || lia).
  rewrite !(probe_left _ es1 sep es2 (Z.of_nat i + 1)) by (assumption || lia).
  destruct (decide (Z.of_nat i + 2 <= Z.of_nat (length es1))) as [Hle|Hgt].
  - now rewrite !(probe_left _ es1 sep es2 (Z.of_nat i + 2)) by (assumption || lia).
  - replace (Z.of_nat i + 1) with (Z.of_nat (length es1)) by lia.
    assert (Hend : forall test, probe test es1 (Z.of_nat (length es1)) = false)
      by (intros test; unfold probe; now rewrite at_index_end).
    now rewrite Hend.
Qed.

Lemma inclusion_filter_right es1 sep es2 (j : nat) :
  isComponent sep = false -> isMandatoryCombinator sep = false ->
  inclusion_filter (es1 ++ sep :: es2) (Z.of_nat (length es1 + 1 + j))
  = inclusion_filter es2 (Z.of_nat j).
Proof.
  intros Hcomp Hmand. unfold inclusion_filter.
  change mandatoryCombinatorAt
    with (probe (fun c => isCombinator c && isMandatoryCombinator c)).
  change optionalComponentAt
    with (probe (fun c => isComponent c && isOptionalComponent c)).
  assert (Hm : isCombinator sep && isMandatoryCombinator sep = false)
    by now rewrite Hmand, andb_false_r.
  assert (Ho : isComponent sep && isOptionalComponent sep = false)
    by now rewrite Hcomp.
  replace (Z.of_nat (length es1 + 1 + j) + 1)
    with (Z.of_nat (length es1) + 1 + (Z.of_nat j + 1)) by lia.
  replace (Z.of_nat (length es1 + 1 + j) + 2)
    with (Z.of_nat (length es1) + 1 + (Z.of_nat j + 2)) by lia.
  replace (Z.of_nat (length es1 + 1 + j) - 1)
    with (Z.of_nat (length es1) + 1 + (Z.of_nat j - 1)) by lia.
  replace (Z.of_nat (length es1 + 1 + j) - 2)
    with (Z.of_nat (length es1) + 1 + (Z.of_nat j - 2)) by lia.
  rewrite !(probe_right _ es1 sep es2 (Z.of_nat j + 1)) by (assumption || lia).
  rewrite !(probe_right _ es1 sep es2 (Z.of_nat j + 2)) by (assumption || lia).
  rewrite !(probe_right _ es1 sep es2 (Z.of_nat j - 1)) by (assumption || lia).
  destruct j as [|j].
  - now replace (probe _ es2 (Z.of_nat 0 - 1)) with false by reflexivity.
  - now rewrite !(probe_right _ es1 sep es2 (Z.of_nat (S j) - 2))
      by (assumption || lia).
Qed.

Lemma triggered_ext entities entities' entity :
  shouldIncludeComponent entities entity = shouldIncludeComponent entities' entity ->
  triggered entities entity = triggered entities' entity.
Proof.
  intros H. destruct entity; cbn [triggered]; now rewrite ?H.
Qed.

Lemma flat_map_ext_lookup {A B} (f g : A -> list B) (xs : list A) :
  (forall i x, xs !! i = Some x -> f x = g x) -> flat_map f xs = flat_map g xs.
Proof.
  induction xs as [|x xs IH]; intros H; cbn; [reflexivity|].
  rewrite (H 0%nat x eq_refl), IH; [reflexivity|].
  intros i y Hy. exact (H (S i) y Hy).
Qed.

(** X14: two arrays joined by a [|] or [||] combinator, all objects
    pairwise different, type as the second array typed on top of what the
    first one left in the accumulator, with [String] added in between for
    [||]: neither side changes what the filter keeps on the other. *)
Theorem alternatives_compose es1 ref combinator es2 :
  combinator = Combinator.SingleBar \/ combinator = Combinator.DoubleBar ->
  distinct_objects (es1 ++ ICombinator ref combinator :: es2) ->
  typing (es1 ++ ICombinator ref combinator :: es2)
  = types (loop es2 es2
             (if bool_decide (combinator = Combinator.DoubleBar)
              then addString (loop es1 es1 initial)
              else loop es1 es1 initial)).
Proof.
  intros Hc Hd. set (sep := ICombinator ref combinator).
  assert (Hcomp : isComponent sep = false) by reflexivity.
  assert (Hmand : isMandatoryCombinator sep = false)
    by (destruct Hc as [-> | ->]; reflexivity).
  assert (Hd1 : distinct_objects es1 /\ distinct_objects es2).
  { unfold distinct_objects in *. rewrite fmap_app, fmap_cons in Hd.
    apply NoDup_app in Hd as (H1 & _ & H2). apply NoDup_cons in H2 as [_ H2].
    now split. }
  destruct Hd1 as [Hd1 Hd2].
  assert (Hleft : flat_map (triggered (es1 ++ sep :: es2)) es1
                  = flat_map (triggered es1) es1).
  { apply flat_map_ext_lookup. intros i e Hi. apply triggered_ext.
    rewrite (shouldIncludeComponent_distinct (es1 ++ sep :: es2) i e Hd)
      by now apply lookup_app_l_Some.
    rewrite (shouldIncludeComponent_distinct es1 i e Hd1 Hi).
    apply inclusion_filter_left; [assumption..|].
    eapply lookup_lt_Some, Hi. }
  assert (Hright : flat_map (triggered (es1 ++ sep :: es2)) es2
                   = flat_map (triggered es2) es2).
  { apply flat_map_ext_lookup. intros j e Hj. apply triggered_ext.
    rewrite (shouldIncludeComponent_distinct (es1 ++ sep :: es2)
               (length es1 + 1 + j) e Hd).
    - rewrite (shouldIncludeComponent_distinct es2 j e Hd2 Hj).
      now apply inclusion_filter_right.
    - rewrite lookup_app_r by lia.
      now replace (length es1 + 1 + j - length es1)%nat with (S j) by lia. }
  rewrite typing_collect, flat_map_app. cbn [flat_map].
  rewrite Hleft, Hright, !collect_app.
  rewrite loop_triggered, add_all_types.
  - f_equal. rewrite <- typing_collect.
    assert (Hsep : triggered (es1 ++ sep :: es2) sep
                   = if bool_decide (combinator = Combinator.DoubleBar)
                     then [IBasic Ty.String] else [])
      by (destruct Hc as [-> | ->]; reflexivity).
    rewrite Hsep. case_bool_decide; [|reflexivity].
    change (addString (loop es1 es1 initial))
      with (add_all [IBasic Ty.String] (loop es1 es1 initial)).
    rewrite add_all_types by apply loop_flags_ok, flags_ok_initial.
    reflexivity.
  - case_bool_decide.
    + apply (add_flags_ok (IBasic Ty.String)), loop_flags_ok, flags_ok_initial.
    + apply loop_flags_ok, flags_ok_initial.
Qed.

(** *** One combinator object between all components *)

Lemma join_lookup_even sep cs i : join sep cs !! (2 * i)%nat = cs !! i.
Proof.
  revert i. induction cs as [|c rest IH]; intros i; [reflexivity|].
  destruct i as [|i]; [reflexivity|].
  replace (2 * S i)%nat with (S (S (2 * i))) by lia.
  destruct rest as [|c' rest']; [reflexivity|].
  cbn [join lookup list_lookup]. exact (IH i).
Qed.

Lemma join_lookup_odd sep cs i :
  join sep cs !! S (2 * i)
  = if bool_decide (S i < length cs)%nat then Some sep else None.
Proof.
  revert i. induction cs as [|c rest IH]; intros i; [reflexivity|].
  destruct rest as [|c' rest']; [now destruct i|].
  destruct i as [|i].
  - cbn. reflexivity.
  - replace (2 * S i)%nat with (S (S (2 * i))) by lia.
    change (join sep (c :: c' :: rest') !! S (S (S (2 * i))))
      with (join sep (c' :: rest') !! S (2 * i)).
    rewrite IH. cbn [length].
    rewrite (bool_decide_ext (S i < S (length rest'))%nat
               (S (S i) < S (S (length rest')))%nat) by lia.
    reflexivity.
Qed.

Lemma join_cons sep c c' rest :
  join sep (c :: c' :: rest) = c :: sep :: join sep (c' :: rest).
Proof. reflexivity. Qed.

Lemma indexOf_cons_ne e rest entity :
  ref_of e <> ref_of entity ->
  indexOf (e :: rest) entity
  = if indexOf rest entity <? 0 then -1 else indexOf rest entity + 1.
Proof.
  intros Hne. cbn [indexOf].
  now destruct (Nat.eqb_spec (ref_of e) (ref_of entity)).
Qed.

Lemma indexOf_join sep cs i c :
  NoDup (ref_of <$> sep :: cs) ->
  cs !! i = Some c ->
  indexOf (join sep cs) c = Z.of_nat (2 * i).
Proof.
  revert i. induction cs as [|c0 rest IH]; intros i Hd Hi; [discriminate|].
  destruct i as [|i].
  - injection Hi as ->. cbn. now rewrite Nat.eqb_refl.
  - cbn in Hi. rewrite !fmap_cons in Hd.
    apply NoDup_cons in Hd as [Hsep Hd]. apply NoDup_cons in Hd as [Hc0 Hd].
    assert (Hin : ref_of c ∈ ref_of <$> rest).
    { apply list_elem_of_fmap. exists c. split; [reflexivity|].
      eapply list_elem_of_lookup_2, Hi. }
    destruct rest as [|c' rest']; [discriminate|].
    rewrite join_cons.
    rewrite indexOf_cons_ne by (intros E; rewrite E in Hc0; contradiction).
    rewrite indexOf_cons_ne
      by (intros E; apply Hsep; rewrite E; now apply elem_of_cons; right).
    rewrite (IH i); [|rewrite fmap_cons; apply NoDup_cons; split|assumption].
    + destruct (Z.ltb_spec (Z.of_nat (2 * i)) 0); [lia|].
      destruct (Z.ltb_spec (Z.of_nat (2 * i) + 1) 0); lia.
    + intros H. apply Hsep. now apply elem_of_cons; right.
    + assumption.
Qed.

Lemma indexOf_join_sep sep c0 c1 rest :
  ref_of c0 <> ref_of sep ->
  indexOf (join sep (c0 :: c1 :: rest)) sep = 1.
Proof.
  intros Hne. rewrite join_cons, indexOf_cons_ne by assumption.
  cbn [indexOf]. now rewrite Nat.eqb_refl.
Qed.

Lemma shouldIncludeComponent_join sep cs i c :
  isCombinator sep && isMandatoryCombinator sep = true ->
  NoDup (ref_of <$> sep :: cs) ->
  (2 <= length cs)%nat ->
  cs !! i = Some c ->
  shouldIncludeComponent (join sep cs) c
  = match (if bool_decide (S i < length cs)%nat then cs !! 1%nat else cs !! 0%nat) with
    | Some d => isComponent d && isOptionalComponent d
    | None => false
    end.
Proof.
  intros Hsep Hd Hlen Hi.
  destruct cs as [|c0 [|c1 rest]]; cbn [length] in Hlen; try lia.
  assert (Hc0 : ref_of c0 <> ref_of sep).
  { rewrite !fmap_cons in Hd. apply NoDup_cons in Hd as [Hd _].
    intros E. apply Hd. rewrite E. now left. }
  unfold shouldIncludeComponent, nextEntity, previousEntity, at_index.
  rewrite (indexOf_join sep _ i c Hd Hi).
  destruct (Z.ltb_spec (Z.of_nat (2 * i) + 1) 0); [lia|].
  replace (Z.to_nat (Z.of_nat (2 * i) + 1)) with (S (2 * i)) by lia.
  rewrite join_lookup_odd.
  case_bool_decide as Hlast.
  - cbn [mandatory]. rewrite Hsep.
    unfold nextComponentIsOptional, nextEntity, at_index.
    rewrite (indexOf_join_sep sep c0 c1 rest Hc0). reflexivity.
  - cbn [mandatory].
    assert (Hpos : (1 <= i)%nat).
    { apply lookup_lt_Some in Hi. cbn [length] in *. lia. }
    destruct (Z.ltb_spec (Z.of_nat (2 * i) - 1) 0); [lia|].
    replace (Z.to_nat (Z.of_nat (2 * i) - 1)) with (S (2 * (i - 1))) by lia.
    rewrite join_lookup_odd.
    rewrite bool_decide_eq_true_2
      by (apply lookup_lt_Some in Hi; lia).
    cbn [mandatory]. rewrite Hsep.
    unfold previousComponentWasOptional, previousEntity, at_index.
    rewrite (indexOf_join_sep sep c0 c1 rest Hc0). reflexivity.
Qed.

(** X15: when one mandatory combinator object stands between all the
    components of an array, its neighbours are the first and the second
    component wherever the loop is, and the filter looks from there: every
    component but the last is kept exactly when the second component is
    optional, and the last one exactly when the first component is
    optional. *)
Theorem shared_combinator_filter sep cs i c :
  isCombinator sep && isMandatoryCombinator sep = true ->
  NoDup (ref_of <$> sep :: cs) ->
  (2 <= length cs)%nat ->
  cs !! i = Some c ->
  previousEntity (join sep cs) sep = cs !! 0%nat
  /\ nextEntity (join sep cs) sep = cs !! 1%nat
  /\ shouldIncludeComponent (join sep cs) c
     = match (if bool_decide (S i < length cs)%nat
              then cs !! 1%nat else cs !! 0%nat) with
       | Some d => isComponent d && isOptionalComponent d
       | None => false
       end.
Proof.
  intros Hsep Hd Hlen Hi.
  split; [|split; [|now apply shouldIncludeComponent_join]].
  - destruct cs as [|c0 [|c1 rest]]; cbn [length] in Hlen; try lia.
    unfold previousEntity. rewrite indexOf_join_sep; [reflexivity|].
    rewrite !fmap_cons in Hd. apply NoDup_cons in Hd as [Hd _].
    intros E. apply Hd. rewrite E. now left.
  - destruct cs as [|c0 [|c1 rest]]; cbn [length] in Hlen; try lia.
    unfold nextEntity. rewrite indexOf_join_sep; [reflexivity|].
    rewrite !fmap_cons in Hd. apply NoDup_cons in Hd as [Hd _].
    intros E. apply Hd. rewrite E. now left.
Qed.

(** X16: such an array of components, with neither the first nor the
    second component optional, types as [String] alone: every component
    is left out, whatever the multipliers of the others. *)
Theorem shared_combinator_String sep cs :
  isCombinator sep && isMandatoryCombinator sep = true ->
  NoDup (ref_of <$> sep :: cs) ->
  (2 <= length cs)%nat ->
  Forall (fun c => isComponent c = true) cs ->
  (forall d, cs !! 0%nat = Some d -> isOptionalComponent d = false) ->
  (forall d, cs !! 1%nat = Some d -> isOptionalComponent d = false) ->
  typing (join sep cs) = [IBasic Ty.String].
Proof.
  intros Hsep Hd Hlen Hcomp H0 H1.
  assert (Hout : forall i c, cs !! i = Some c ->
                             triggered (join sep cs) c = []).
  { intros i c Hi.
    assert (Hc : isComponent c = true).
    { rewrite Forall_forall in Hcomp. apply Hcomp.
      eapply list_elem_of_lookup_2, Hi. }
    assert (Hinc : shouldIncludeComponent (join sep cs) c = false).
    { rewrite (shouldIncludeComponent_join sep cs i c Hsep Hd Hlen Hi).
      case_bool_decide.
      - destruct (cs !! 1%nat) as [d|] eqn:E; [|reflexivity].
        now rewrite (H1 d eq_refl), andb_false_r.
      - destruct (cs !! 0%nat) as [d|] eqn:E; [|reflexivity].
        now rewrite (H0 d eq_refl), andb_false_r. }
    destruct c; cbn [triggered]; try discriminate; now rewrite Hinc. }
  assert (Hsepout : triggered (join sep cs) sep = [IBasic Ty.String]).
  { destruct sep as [| | |r c|]; try discriminate.
    cbn [triggered]. cbn [isCombinator andb] in Hsep.
    now rewrite Hsep, orb_true_r. }
  assert (Hstream : forall rest,
    (forall c, In c rest -> triggered (join sep cs) c = []) ->
    flat_map (triggered (join sep cs)) (join sep rest)
    = repeat (IBasic Ty.String) (pred (length rest))).
  { induction rest as [|c rest IH]; intros Hrest; [reflexivity|].
    destruct rest as [|c' rest'].
    - cbn. rewrite (Hrest c) by now left. reflexivity.
    - rewrite join_cons. cbn [flat_map].
      rewrite (Hrest c) by now left. rewrite Hsepout.
      rewrite IH by (intros d Hin; apply Hrest; now right).
      reflexivity. }
  assert (Hrepeat : forall n,
    collect [IBasic Ty.String] (repeat (IBasic Ty.String) n) = [IBasic Ty.String]).
  { induction n as [|n IH]; [reflexivity|exact IH]. }
  rewrite typing_collect, Hstream.
  - destruct cs as [|c0 [|c1 rest]]; cbn [length] in Hlen; try lia.
    apply (Hrepeat (length rest)).
  - intros c [i Hi]%list_elem_of_In%list_elem_of_lookup_1. eapply Hout, Hi.
Qed.

End Further.

(** ** The theorems at concrete inputs *)

Lemma Naturals_digit_letter c : JS.is_letter c = true -> Naturals.digit c = None.
Proof.
  destruct c as [[] [] [] [] [] [] [] []]; vm_compute; congruence.
Qed.

Lemma Naturals_laws : JS.Laws Naturals.runtime.
Proof.
  split.
  - intros c s Hc _. cbn. now rewrite (Naturals_digit_letter c Hc).
  - reflexivity.
  - reflexivity.
  - reflexivity.
  - now intros [x|].
Qed.

Lemma keyword_literal_witness :
  JS.Laws Naturals.runtime
  /\ sample_typing [IComponentKeyword 0 "0" None]
     = [INumericLiteral (rt := Naturals.runtime) (Some 0%N)]
  /\ sample_typing [IComponentKeyword 0 "auto" None] = [IStringLiteral "auto"].
Proof.
  split; [exact Naturals_laws|].
  destruct (keyword_literal (rt := Naturals.runtime) (data := sample_data)
              Naturals_laws) as (_ & _ & H0 & Hauto).
  split; [apply (H0 0%nat None)|apply (Hauto 0%nat None)].
Defined.

Lemma combinator_adds_String_witness :
  JS.Laws Naturals.runtime
  /\ sample_typing [IComponentKeyword 0 "auto" None;
                    ICombinator 1 Combinator.DoubleBar;
                    IComponentKeyword 2 "none" None]
     = [IStringLiteral "auto"; IBasic Ty.String; IStringLiteral "none"].
Proof.
  split; [exact Naturals_laws|].
  destruct (combinator_adds_String (rt := Naturals.runtime) (data := sample_data)
              Naturals_laws) as (_ & _ & _ & H).
  apply (H 0%nat 1%nat 2%nat None None).
Defined.

Lemma group_collapse_and_merge_witness :
  JS.Laws Naturals.runtime
  /\ sample_typing [IComponentGroup 0 [IComponentKeyword 1 "a" None]
                      (Some (IMultiplierSimple Multiplier.Asterisk))]
     = [IBasic Ty.String; IStringLiteral "a"].
Proof.
  split; [exact Naturals_laws|].
  destruct (group_collapse_and_merge (rt := Naturals.runtime) (data := sample_data)
              Naturals_laws) as (_ & _ & _ & H).
  apply (H 0%nat 1%nat None).
Defined.

Lemma excluded_group_contributes_nothing_witness :
  shouldIncludeComponent
    (left_out_group :: around_left_out_group) left_out_group = false
  /\ sample_typing (left_out_group :: around_left_out_group)
     = types (loop (rt := Naturals.runtime) (data := sample_data)
                (left_out_group :: around_left_out_group)
                around_left_out_group initial).
Proof.
  split; [reflexivity|].
  apply (excluded_group_contributes_nothing
           (rt := Naturals.runtime) (data := sample_data)
           (left_out_group :: around_left_out_group) [] around_left_out_group
           0%nat [IComponentKeyword 1 "a" None]
           (Some (IMultiplierSimple Multiplier.Asterisk)));
    reflexivity.
Defined.

Lemma data_type_descriptor_witness :
  shouldIncludeComponent
    [IComponentDataType 0 "<length>" None] (IComponentDataType 0 "<length>" None) = true
  /\ sample_body [IComponentDataType 0 "<length>" None] initial
       (IComponentDataType 0 "<length>" None)
     = addLength initial
  /\ In (IBasic Ty.Length) (sample_typing [IComponentDataType 0 "<length>" None])
  /\ In (IDataType (rt := Naturals.runtime) "color")
       (sample_typing [IComponentDataType 0 "<color>" None])
  /\ basicDataTypes (data := sample_data) !! "toString" = None
  /\ JS.inherited "toString" = true
  /\ sample_body [IComponentDataType 0 "<toString>" None] initial
       (IComponentDataType 0 "<toString>" None)
     = initial
  /\ sample_typing [IComponentDataType 0 "<toString>" None] = []
  /\ ~ In (IDataType (rt := Naturals.runtime) "toString")
         (sample_typing [IComponentDataType 0 "<toString>" None]).
Proof.
  split; [reflexivity|]. unfold sample_body.
  destruct (data_type_descriptor (rt := Naturals.runtime) (data := sample_data)
              [IComponentDataType 0 "<length>" None] 0%nat "<length>" None
              eq_refl) as (Hbody & Hin & _).
  destruct (data_type_descriptor (rt := Naturals.runtime) (data := sample_data)
              [IComponentDataType 0 "<color>" None] 0%nat "<color>" None
              eq_refl) as (_ & Hcolor & _).
  destruct (data_type_descriptor (rt := Naturals.runtime) (data := sample_data)
              [IComponentDataType 0 "<toString>" None] 0%nat "<toString>" None
              eq_refl) as (Hnone & _ & Hnothing).
  split; [rewrite Hbody; reflexivity|].
  split; [apply Hin; [now left|right; left; now exists Ty.Length]|].
  split; [apply Hcolor; [now left|right; right; reflexivity]|].
  split; [reflexivity|]. split; [reflexivity|].
  split; [rewrite Hnone; reflexivity|].
  now apply Hnothing.
Defined.

Lemma catalog_contents_witness :
  ("hex-color" ∉ syntaxes (MdnData := sample_data))
  /\ (basicDataTypes (data := sample_data) !! "hex-color" = Some Ty.String)
  /\ (basicDataTypes (data := sample_data) !! "integer" = Some Ty.Number)
  /\ (basicDataTypes (data := sample_data) !! "color" = None).
Proof.
  assert (H : "hex-color" ∉ syntaxes (MdnData := sample_data)).
  { cbn. intros [=]%elem_of_singleton. }
  destruct (catalog_contents (data := sample_data)) as [Hall Hhex].
  split; [exact H|]. split; [exact (Hhex H)|].
  split; rewrite Hall; reflexivity.
Defined.

Lemma NaN_literal_twice_witness :
  JS.Laws Naturals.runtime
  /\ sample_typing [IComponentKeyword 0 "NaN" None;
                    ICombinator 1 Combinator.SingleBar;
                    IComponentKeyword 2 "NaN" None]
     = [INumericLiteral (rt := Naturals.runtime) None;
        INumericLiteral (rt := Naturals.runtime) None].
Proof.
  split; [exact Naturals_laws|].
  apply (NaN_literal_twice (rt := Naturals.runtime) (data := sample_data)
           Naturals_laws).
Defined.

Lemma NaN_literal_inserted_again_witness :
  JS.Laws Naturals.runtime
  /\ sample_typing [IComponentKeyword 0 "NaN" None;
                    ICombinator 1 Combinator.SingleBar;
                    IComponentKeyword 2 "auto" None;
                    ICombinator 1 Combinator.SingleBar;
                    IComponentKeyword 3 "NaN" None]
     = [INumericLiteral (rt := Naturals.runtime) None; IStringLiteral "auto";
        INumericLiteral (rt := Naturals.runtime) None].
Proof.
  split; [exact Naturals_laws|].
  apply (NaN_literal_inserted_again (rt := Naturals.runtime) (data := sample_data)
           Naturals_laws).
Defined.


(** ** The further properties at concrete inputs *)

Lemma add_twice_witness :
  same (rt := Naturals.runtime) (IStringLiteral "auto") (IStringLiteral "auto") = true
  /\ add (IStringLiteral "auto") (add (IStringLiteral "auto") initial)
     = add (rt := Naturals.runtime) (IStringLiteral "auto") initial.
Proof.
  split; [reflexivity|].
  apply (add_twice (rt := Naturals.runtime) (IStringLiteral "auto") initial).
  reflexivity.
Defined.

Lemma neighbours_of_first_occurrence_witness :
  previousEntity [shared_a; shared_J; shared_b; shared_J; shared_c] shared_J
  = Some shared_a
  /\ nextEntity [shared_a; shared_J; shared_b; shared_J; shared_c] shared_J
     = Some shared_b.
Proof.
  apply (neighbours_of_first_occurrence
           [shared_a] shared_J [shared_b; shared_J; shared_c] shared_J).
  - reflexivity.
  - repeat constructor. discriminate.
Defined.

Lemma neighbours_of_absent_witness :
  nextEntity [shared_a; shared_J; shared_b] shared_c = Some shared_a
  /\ previousEntity [shared_a; shared_J; shared_b] shared_c = None.
Proof.
  apply (neighbours_of_absent [shared_a; shared_J; shared_b] shared_c).
  repeat constructor; discriminate.
Defined.

Lemma filter_by_position_witness :
  distinct_objects [shared_a; shared_J; shared_b]
  /\ nextEntity [shared_a; shared_J; shared_b] shared_a = Some shared_J
  /\ previousEntity [shared_a; shared_J; shared_b] shared_a = None
  /\ shouldIncludeComponent [shared_a; shared_J; shared_b] shared_a = false.
Proof.
  assert (H : distinct_objects [shared_a; shared_J; shared_b]).
  { unfold distinct_objects. now apply (bool_decide_unpack _). }
  split; [exact H|].
  apply (filter_by_position [shared_a; shared_J; shared_b] 0 shared_a H eq_refl).
Defined.

Lemma keyword_alternatives_witness :
  sample_typing [IComponentKeyword 0 "auto" None;
                 ICombinator 1 Combinator.SingleBar;
                 IComponentKeyword 2 "none" None;
                 ICombinator 1 Combinator.SingleBar;
                 IComponentKeyword 3 "inherit" None]
  = [IStringLiteral "auto"; IStringLiteral "none"; IStringLiteral "inherit"].
Proof.
  apply (keyword_alternatives (rt := Naturals.runtime) (data := sample_data)
           [IComponentKeyword 0 "auto" None;
            ICombinator 1 Combinator.SingleBar;
            IComponentKeyword 2 "none" None;
            ICombinator 1 Combinator.SingleBar;
            IComponentKeyword 3 "inherit" None]).
  - repeat constructor.
  - now apply (bool_decide_unpack _).
  - repeat constructor.
Defined.

Lemma left_out_leaves_String_witness :
  shouldIncludeComponent
    (left_out_group :: around_left_out_group) left_out_group = false
  /\ In (IBasic Ty.String) (sample_typing (left_out_group :: around_left_out_group)).
Proof.
  split; [reflexivity|].
  apply (left_out_leaves_String (rt := Naturals.runtime) (data := sample_data)
           (left_out_group :: around_left_out_group) left_out_group eq_refl).
Defined.

Lemma alternatives_compose_witness :
  distinct_objects
    ([IComponentKeyword 0 "auto" None]
       ++ ICombinator 1 Combinator.DoubleBar :: [IComponentKeyword 2 "none" None])
  /\ sample_typing
       ([IComponentKeyword 0 "auto" None]
          ++ ICombinator 1 Combinator.DoubleBar :: [IComponentKeyword 2 "none" None])
     = types (loop (rt := Naturals.runtime) (data := sample_data)
                [IComponentKeyword 2 "none" None] [IComponentKeyword 2 "none" None]
                (addString
                   (loop (rt := Naturals.runtime) (data := sample_data)
                      [IComponentKeyword 0 "auto" None]
                      [IComponentKeyword 0 "auto" None] initial))).
Proof.
  assert (H : distinct_objects
    ([IComponentKeyword 0 "auto" None]
       ++ ICombinator 1 Combinator.DoubleBar :: [IComponentKeyword 2 "none" None])).
  { unfold distinct_objects. now apply (bool_decide_unpack _). }
  split; [exact H|].
  apply (alternatives_compose (rt := Naturals.runtime) (data := sample_data)
           [IComponentKeyword 0 "auto" None] 1 Combinator.DoubleBar
           [IComponentKeyword 2 "none" None] (or_intror eq_refl) H).
Defined.

Lemma shared_combinator_filter_witness :
  NoDup (ref_of <$> shared_J :: [shared_a; shared_b; shared_q])
  /\ nextEntity [shared_a; shared_J; shared_b; shared_J; shared_q] shared_J
     = Some shared_b
  /\ shouldIncludeComponent
       [shared_a; shared_J; shared_b; shared_J; shared_q] shared_b = false.
Proof.
  assert (H : NoDup (ref_of <$> shared_J :: [shared_a; shared_b; shared_q]))
    by now apply (bool_decide_unpack _).
  split; [exact H|].
  destruct (shared_combinator_filter shared_J [shared_a; shared_b; shared_q]
              1 shared_b eq_refl H) as (_ & Hnext & Hfilter);
    [cbn; lia|reflexivity|].
  split; [exact Hnext|exact Hfilter].
Defined.

Lemma shared_combinator_String_witness :
  NoDup (ref_of <$> shared_J :: [shared_a; shared_b; shared_q])
  /\ sample_typing [shared_a; shared_J; shared_b; shared_J; shared_q]
     = [IBasic Ty.String].
Proof.
  assert (H : NoDup (ref_of <$> shared_J :: [shared_a; shared_b; shared_q]))
    by now apply (bool_decide_unpack _).
  split; [exact H|].
  apply (shared_combinator_String (rt := Naturals.runtime) (data := sample_data)
           shared_J [shared_a; shared_b; shared_q] eq_refl H).
  - cbn. lia.
  - repeat constructor.
  - intros d [= <-]. reflexivity.
  - intros d [= <-]. reflexivity.
Defined.
